(** * pathy/gcs.py: the Google Cloud Storage adapter of pathy

    A shallow embedding of [src/pathy/gcs.py] and the properties of its
    directory emulation, pagination and error handling.

    The vendor SDK ([google.cloud.storage]) is an external collaborator:
    its calls are fields of records or variables of the section, each returning
    either a value or the exception it raises.  A Python generator is
    embedded as the trace it produces: the entries it yields, in order, and
    how it ends.  The [while True] loops run on fuel. *)

From Stdlib Require Import String Ascii List ZArith Lia Bool Arith.
Import ListNotations.
Local Open Scope string_scope.
Local Open Scope list_scope.

(** ** Python strings *)

Module PyStr.

(** [s.startswith(p)] *)
Definition startswith (s p : string) : bool := String.prefix p s.

(** [s.endswith(p)] *)
Definition endswith (s p : string) : bool :=
  let n := String.length s in
  let m := String.length p in
  if Nat.leb m n then String.eqb (String.substring (n - m) m s) p else false.

(** [s[:-1]] *)
Definition drop_last (s : string) : string :=
  String.substring 0 (String.length s - 1) s.

(** [s.split(sep)] for a non-empty [sep] (Python raises [ValueError] on an
    empty one; the only separator of this file is the flavour's).
    [skip] counts the characters of a matched separator still to pass,
    [cur] is the segment read so far. *)
Fixpoint split_from (sep : string) (skip : nat) (cur s : string) : list string :=
  match s with
  | EmptyString => [cur]
  | String c rest =>
      match skip with
      | S k => split_from sep k cur rest
      | O =>
          if String.prefix sep s
          then cur :: split_from sep (String.length sep - 1) "" rest
          else split_from sep 0 (cur ++ String c "")%string rest
      end
  end.

Definition split (s sep : string) : list string := split_from sep 0 "" s.

(** [s.split(sep)[-1]]: the list is never empty. *)
Definition last_segment (s sep : string) : string := List.last (split s sep) "".

(** Truth value of a string: [if s:] *)
Definition truthy (s : string) : bool := negb (String.eqb s "").

End PyStr.

(** ** Exceptions and results *)

Inductive exn : Type :=
| AssertionError
| FileNotFoundError (msg : string)
| GcsClientError (message : string) (code : Z)   (* gcs_errors.ClientError *)
| ClientError (message : string) (code : Z)      (* pathy.client.ClientError *)
| DefaultCredentialsError
| OtherError (what : string).

(** A call that returns or raises. *)
Definition result (A : Type) : Type := (exn + A)%type.

Definition Ret {A} (a : A) : result A := inr a.
Definition Raise {A} (e : exn) : result A := inl e.

(** [except gcs_errors.ClientError] *)
Definition is_gcs_client_error (e : exn) : bool :=
  match e with GcsClientError _ _ => true | _ => false end.

(** ** Iterators of the collaborator and generators of the adapter *)

(** An iterator handed out by the SDK: it gives items until it is exhausted
    or raises. *)
Inductive iter (A : Type) : Type :=
| INil
| ICons (a : A) (rest : iter A)
| IRaise (e : exn).
Arguments INil {A}.
Arguments ICons {A} a rest.
Arguments IRaise {A} e.

Fixpoint iter_items {A} (it : iter A) : list A :=
  match it with
  | ICons a rest => a :: iter_items rest
  | _ => []
  end.

(** How a generator ended: it returned, it raised, or the fuel of the
    model ran out while its [while True] loop was still running. *)
Inductive outcome : Type :=
| Done
| Raised (e : exn)
| OutOfFuel.

(** How iterating to the end of an iterator of the SDK ends. *)
Fixpoint iter_ending {A} (it : iter A) : outcome :=
  match it with
  | INil => Done
  | ICons _ rest => iter_ending rest
  | IRaise e => Raised e
  end.

(** A generator, consumed: what it yielded, in order, and how it ended. *)
Definition gen (A : Type) : Type := (list A * outcome)%type.

Module Gen.

Definition yielded {A} (g : gen A) : list A := fst g.
Definition ending {A} (g : gen A) : outcome := snd g.

Definition stop {A} : gen A := ([], Done).
Definition yield {A} (a : A) : gen A := ([a], Done).
Definition raise {A} (e : exn) : gen A := ([], Raised e).
Definition starve {A} : gen A := ([], OutOfFuel).

(** [g] and then [k], when [g] returns. *)
Definition seq {A} (g k : gen A) : gen A :=
  match snd g with
  | Done => (fst g ++ fst k, snd k)
  | _ => g
  end.

(** [for x in l: body(x)] over a Python list. *)
Fixpoint for_list {A B} (l : list A) (body : A -> gen B) : gen B :=
  match l with
  | [] => stop
  | a :: l' => seq (body a) (for_list l' body)
  end.

(** [for x in it: body(x)] over an iterator of the SDK. *)
Fixpoint for_iter {A B} (it : iter A) (body : A -> gen B) : gen B :=
  match it with
  | INil => stop
  | ICons a rest => seq (body a) (for_iter rest body)
  | IRaise e => raise e
  end.

End Gen.

(** What a fuel-bounded consumer of a generator does. *)
Inductive completion (A : Type) : Type :=
| Returns (a : A)
| Raises (e : exn)
| Timeout.
Arguments Returns {A} a.
Arguments Raises {A} e.
Arguments Timeout {A}.

(** ** The data model *)

(** Modelled from the spec: [PurePathy] lives in [pathy/base.py], which is
    not part of this file.  A path has a root (the bucket name) and a key
    (the object path within the bucket), both strings here, and its flavour
    has the single separator [/]. *)
Record PurePathy : Type := {
  root : string;
  key : string
}.

(** Modelled from the spec: [path._flavour.sep], the separator [/] the
    flavour of [pathy/base.py] defines. *)
Definition sep : string := "/".

(** A Python object together with its identity. *)
Record located (A : Type) : Type := {
  addr : nat;
  obj : A
}.
Arguments addr {A} l.
Arguments obj {A} l.

Section GCS.

(** Values of the SDK this file only passes along: the owner of an
    object, a [datetime], and the float [datetime.timestamp()] gives. *)
Variable Owner : Type.
Variable DateTime : Type.
Variable Timestamp : Type.
Variable timestamp : DateTime -> Timestamp.

(** [storage.Blob], as far as this file reads it; the objects of a listing
    always have their [updated] time. *)
Record storage_Blob : Type := {
  blob_name : string;
  blob_owner : Owner;
  blob_size : Z;
  blob_updated : DateTime
}.

(** [storage.Bucket]: a handle on a named bucket. *)
Record storage_Bucket : Type := {
  bucket_name : string
}.

(** The methods of [storage.Bucket] this file calls. *)
Variable bucket_get_blob : storage_Bucket -> string -> result (option storage_Blob).
Variable bucket_copy_blob :
  storage_Bucket -> storage_Blob -> storage_Bucket -> string ->
  result (option storage_Blob).
Variable bucket_exists : storage_Bucket -> result bool.

(** One page of a listing, and the response [client.list_blobs] gives. *)
Record Page : Type := {
  prefixes : list string;
  page_items : list storage_Blob
}.

Record Response : Type := {
  pages : iter Page;
  next_page_token : option string
}.

(** [storage.Client]: the calls this file makes on it.  [client_list_blobs]
    takes the bucket name, [prefix], [delimiter] and [page_token] ([None]
    when the argument is not passed). *)
Record storage_Client : Type := {
  client_bucket : string -> result (option storage_Bucket);
  client_list_blobs :
    string -> option string -> option string -> option string -> result Response;
  client_list_buckets : result (iter storage_Bucket)
}.

(** The module-level name [storage]: [storage.Client()] returns a new
    client or raises. *)
Record storage_module : Type := {
  storage_Client_new : result storage_Client
}.

Record BucketGCS : Type := {
  BucketGCS_name : string;
  BucketGCS_bucket : storage_Bucket
}.

(** The [bucket] field of a [BlobGCS] holds what the constructor was
    given: the SDK's bucket in [get_blob] and [copy_blob], the [BucketGCS]
    wrapper in [list_blobs]. *)
Inductive bucket_ref : Type :=
| NativeBucket (b : storage_Bucket)
| WrappedBucket (b : BucketGCS).

Record BlobGCS : Type := {
  BlobGCS_bucket : bucket_ref;
  BlobGCS_owner : Owner;
  BlobGCS_name : string;
  BlobGCS_raw : option storage_Blob;
  BlobGCS_size : Z;
  BlobGCS_updated : Timestamp
}.

(** Modelled from the spec: [BucketEntry] lives in [pathy/client.py], which
    is not part of this file.  [size] and [last_modified] are optional;
    [None] stands for an argument the caller did not pass. *)
Record BucketEntryGCS : Type := {
  Entry_name : string;
  Entry_is_dir : bool;
  Entry_size : option Z;
  Entry_last_modified : option Timestamp;
  Entry_raw : option storage_Blob
}.

Record BucketClientGCS : Type := {
  client : option (located storage_Client)
}.

(** ** BucketGCS *)

Definition BlobGCS_of_native (bucket : bucket_ref) (native_blob : storage_Blob) : BlobGCS :=
  {| BlobGCS_bucket := bucket;
     BlobGCS_owner := blob_owner native_blob;
     BlobGCS_name := blob_name native_blob;
     BlobGCS_raw := Some native_blob;
     BlobGCS_size := blob_size native_blob;
     BlobGCS_updated := timestamp (blob_updated native_blob) |}.

Definition get_blob (self : BucketGCS) (blob_name : string) : result (option BlobGCS) :=
  let native_blob :=
    match bucket_get_blob (BucketGCS_bucket self) blob_name with
    | inr b => Ret b
    | inl e => if is_gcs_client_error e then Ret None else Raise e
    end in
  match native_blob with
  | inl e => Raise e
  | inr None => Ret None
  | inr (Some native_blob) =>
      Ret (Some (BlobGCS_of_native (NativeBucket (BucketGCS_bucket self)) native_blob))
  end.

Definition copy_blob (self : BucketGCS) (blob : BlobGCS) (target : BucketGCS)
  (name : string) : result (option BlobGCS) :=
  match BlobGCS_raw blob with
  | None => Raise AssertionError
  | Some raw =>
      match bucket_copy_blob (BucketGCS_bucket self) raw (BucketGCS_bucket target) name with
      | inl e => Raise e
      | inr None => Ret None
      | inr (Some native_blob) =>
          Ret (Some (BlobGCS_of_native (NativeBucket (BucketGCS_bucket self)) native_blob))
      end
  end.

Definition BucketGCS_exists (self : BucketGCS) : result bool :=
  match bucket_exists (BucketGCS_bucket self) with
  | inr b => Ret b
  | inl e => if is_gcs_client_error e then Ret false else Raise e
  end.

(** ** BucketClientGCS *)

(** [__init__(self, client=None)], run when [fresh] is the identity the
    next new object gets. *)
Definition BucketClientGCS_init (fresh : nat) (storage : option storage_module)
  (client_arg : option (located storage_Client)) : BucketClientGCS :=
  match storage with
  | Some m =>
      match storage_Client_new m with
      | inr c => {| client := Some {| addr := fresh; obj := c |} |}
      | inl _ => {| client := None |}
      end
  | None => {| client := None |}
  end.

(** [lookup_bucket]; what it prints is not part of the model. *)
Definition lookup_bucket (self : BucketClientGCS) (path : PurePathy)
  : result (option BucketGCS) :=
  match client self with
  | None => Raise AssertionError
  | Some c =>
      match client_bucket (obj c) (root path) with
      | inr (Some native_bucket) =>
          Ret (Some {| BucketGCS_name := root path; BucketGCS_bucket := native_bucket |})
      | inr None => Ret None
      | inl err => if is_gcs_client_error err then Ret None else Raise err
      end
  end.

Definition get_bucket (self : BucketClientGCS) (path : PurePathy) : result BucketGCS :=
  match client self with
  | None => Raise AssertionError
  | Some c =>
      match client_bucket (obj c) (root path) with
      | inr (Some native_bucket) =>
          Ret {| BucketGCS_name := root path; BucketGCS_bucket := native_bucket |}
      | inr None =>
          Raise (FileNotFoundError ("Bucket " ++ root path ++ " does not exist!")%string)
      | inl (GcsClientError message code) => Raise (ClientError message code)
      | inl e => Raise e
      end
  end.

Definition list_buckets (self : BucketClientGCS) : result (iter storage_Bucket) :=
  match client self with
  | None => Raise AssertionError
  | Some c => client_list_buckets (obj c)
  end.

(** [if continuation_token:] *)
Definition token_truthy (continuation_token : option string) : bool :=
  match continuation_token with
  | Some t => PyStr.truthy t
  | None => false
  end.

(** The entry of one common prefix of a page. *)
Definition folder_entries (folder : string) : gen BucketEntryGCS :=
  let full_name :=
    if PyStr.endswith folder sep then PyStr.drop_last folder else folder in
  let name := PyStr.last_segment full_name sep in
  if PyStr.truthy name
  then Gen.yield {| Entry_name := name; Entry_is_dir := true; Entry_size := None;
                    Entry_last_modified := None; Entry_raw := None |}
  else Gen.stop.

(** The entry of one item of a page. *)
Definition item_entries (item : storage_Blob) : gen BucketEntryGCS :=
  let name := PyStr.last_segment (blob_name item) sep in
  if PyStr.truthy name
  then Gen.yield {| Entry_name := name; Entry_is_dir := false;
                    Entry_size := Some (blob_size item);
                    Entry_last_modified := Some (timestamp (blob_updated item));
                    Entry_raw := Some item |}
  else Gen.stop.

Definition scandir_page (page : Page) : gen BucketEntryGCS :=
  Gen.seq (Gen.for_list (prefixes page) folder_entries)
          (Gen.for_list (page_items page) item_entries).

(** The [while True] loop of [scandir]. *)
Fixpoint scandir_loop (fuel : nat) (c : storage_Client) (bucket : BucketGCS)
  (prefix : option string) (continuation_token : option string)
  : gen BucketEntryGCS :=
  match fuel with
  | O => Gen.starve
  | S fuel' =>
      let response :=
        if token_truthy continuation_token
        then client_list_blobs c (BucketGCS_name bucket) prefix (Some sep)
               continuation_token
        else client_list_blobs c (BucketGCS_name bucket) prefix (Some sep) None in
      match response with
      | inl e => Gen.raise e
      | inr response =>
          Gen.seq (Gen.for_iter (pages response) scandir_page)
            match next_page_token response with
            | None => Gen.stop
            | Some t => scandir_loop fuel' c bucket prefix (Some t)
            end
      end
  end.

Definition scandir (fuel : nat) (self : BucketClientGCS) (path : option PurePathy)
  (prefix delimiter : option string) (include_raw : bool) : gen BucketEntryGCS :=
  match client self with
  | None => Gen.raise AssertionError
  | Some c =>
      let rootless :=
        match path with
        | None => true
        | Some p => negb (PyStr.truthy (root p))
        end in
      if rootless
      then
        match list_buckets self with
        | inl e => Gen.raise e
        | inr buckets =>
            Gen.for_iter buckets (fun bucket =>
              Gen.yield {| Entry_name := bucket_name bucket; Entry_is_dir := true;
                           Entry_size := None; Entry_last_modified := None;
                           Entry_raw := None |})
        end
      else
        match path with
        | None => Gen.stop
        | Some p =>
            match lookup_bucket self p with
            | inl e => Gen.raise e
            | inr None => Gen.stop
            | inr (Some bucket) => scandir_loop fuel (obj c) bucket prefix None
            end
        end
  end.

(** The [while True] loop of [list_blobs]. *)
Fixpoint list_blobs_loop (fuel : nat) (c : storage_Client) (path : PurePathy)
  (prefix delimiter : option string) (bucket : BucketGCS)
  (continuation_token : option string) : gen BlobGCS :=
  match fuel with
  | O => Gen.starve
  | S fuel' =>
      let response :=
        if token_truthy continuation_token
        then client_list_blobs c (root path) prefix delimiter continuation_token
        else client_list_blobs c (root path) prefix delimiter None in
      match response with
      | inl e => Gen.raise e
      | inr response =>
          Gen.seq
            (Gen.for_iter (pages response) (fun page =>
               Gen.for_list (page_items page) (fun item =>
                 Gen.yield (BlobGCS_of_native (WrappedBucket bucket) item))))
            match next_page_token response with
            | None => Gen.stop
            | Some t => list_blobs_loop fuel' c path prefix delimiter bucket (Some t)
            end
      end
  end.

Definition list_blobs (fuel : nat) (self : BucketClientGCS) (path : PurePathy)
  (prefix delimiter : option string) (include_dirs : bool) : gen BlobGCS :=
  match client self with
  | None => Gen.raise AssertionError
  | Some c =>
      match lookup_bucket self path with
      | inl e => Gen.raise e
      | inr None => Gen.stop
      | inr (Some bucket) =>
          list_blobs_loop fuel (obj c) path prefix delimiter bucket None
      end
  end.

(** The two tests [exists] makes on one listed object. *)
Definition key_matches (key_name : string) (obj_name : string) : bool :=
  if String.eqb obj_name key_name then true
  else if PyStr.startswith obj_name (key_name ++ sep)%string then true
  else false.

(** [exists] pulls objects out of [list_blobs] one at a time and returns on
    the first match, so it only sees the listing up to there; when no
    object matches, how the listing ended decides.  This is [exists] in a
    module whose import of the SDK succeeded: only there is the name
    [gcs_errors] of its [except] clause bound. *)
Definition BucketClientGCS_exists (fuel : nat) (self : BucketClientGCS)
  (path : PurePathy) : completion bool :=
  let key_name := key path in
  let listing := list_blobs fuel self path None None false in
  if existsb (fun o => key_matches key_name (BlobGCS_name o)) (Gen.yielded listing)
  then Returns true
  else
    match Gen.ending listing with
    | Done => Returns false
    | Raised e => if is_gcs_client_error e then Returns false else Raises e
    | OutOfFuel => Timeout
    end.

(** ** Reference notions for the statements *)

(** The page token a fetch is made with, given the loop's token. *)
Definition page_token_of (continuation_token : option string) : option string :=
  if token_truthy continuation_token then continuation_token else None.

(** [listing_run c name prefix delimiter tok rs o]: what the SDK does
    when the listing of bucket [name] is followed from token [tok].  The
    fetches that answer give the responses [rs], in order; [o] is how the
    run ends: [Done] when the last response carries no token, [Raised e]
    when a fetch, or the page iterator of the last response, raises [e].
    Every response but the last has pages that iterate to their end. *)
Inductive listing_run (c : storage_Client) (name : string)
  (prefix delimiter : option string) :
  option string -> list Response -> outcome -> Prop :=
| run_last tok r :
    client_list_blobs c name prefix delimiter (page_token_of tok) = inr r ->
    iter_ending (pages r) = Done ->
    next_page_token r = None ->
    listing_run c name prefix delimiter tok [r] Done
| run_next tok r t rs o :
    client_list_blobs c name prefix delimiter (page_token_of tok) = inr r ->
    iter_ending (pages r) = Done ->
    next_page_token r = Some t ->
    listing_run c name prefix delimiter (Some t) rs o ->
    listing_run c name prefix delimiter tok (r :: rs) o
| run_fetch_raises tok e :
    client_list_blobs c name prefix delimiter (page_token_of tok) = inl e ->
    listing_run c name prefix delimiter tok [] (Raised e)
| run_pages_raise tok r e :
    client_list_blobs c name prefix delimiter (page_token_of tok) = inr r ->
    iter_ending (pages r) = Raised e ->
    listing_run c name prefix delimiter tok [r] (Raised e).

Definition all_pages (rs : list Response) : list Page :=
  flat_map (fun r => iter_items (pages r)) rs.

Definition all_items (rs : list Response) : list storage_Blob :=
  flat_map page_items (all_pages rs).

(** The entries of a page, in the words of the specification: a
    directory entry per common prefix whose last segment is not empty, ... *)
Definition dir_entry_of (folder : string) : BucketEntryGCS :=
  let full_name :=
    if PyStr.endswith folder sep then PyStr.drop_last folder else folder in
  {| Entry_name := PyStr.last_segment full_name sep; Entry_is_dir := true;
     Entry_size := None; Entry_last_modified := None; Entry_raw := None |}.

Definition file_entry_of (item : storage_Blob) : BucketEntryGCS :=
  {| Entry_name := PyStr.last_segment (blob_name item) sep; Entry_is_dir := false;
     Entry_size := Some (blob_size item);
     Entry_last_modified := Some (timestamp (blob_updated item));
     Entry_raw := Some item |}.

Definition named (e : BucketEntryGCS) : bool := PyStr.truthy (Entry_name e).

(** ... and then a file entry per item: every item, as the claim on the
    pages of [scandir] words it, ... *)
Definition page_entries_as_claimed (page : Page) : list BucketEntryGCS :=
  filter named (map dir_entry_of (prefixes page))
  ++ map file_entry_of (page_items page).

(** ... or only the items whose last segment is not empty. *)
Definition page_entries (page : Page) : list BucketEntryGCS :=
  filter named (map dir_entry_of (prefixes page))
  ++ filter named (map file_entry_of (page_items page)).

Definition bucket_entry_of (bucket : storage_Bucket) : BucketEntryGCS :=
  {| Entry_name := bucket_name bucket; Entry_is_dir := true; Entry_size := None;
     Entry_last_modified := None; Entry_raw := None |}.

(** ** Strings *)

Example split_nested : PyStr.split "a/b/c.txt" "/" = ["a"; "b"; "c.txt"]%string.
Proof. reflexivity. Qed.

Example split_trailing : PyStr.split "a/b/" "/" = ["a"; "b"; ""]%string.
Proof. reflexivity. Qed.

Example split_empty : PyStr.split "" "/" = [""%string].
Proof. reflexivity. Qed.

Example split_long_separator : PyStr.split "xabyabz" "ab" = ["x"; "y"; "z"]%string.
Proof. reflexivity. Qed.

Example endswith_separator :
  PyStr.endswith "dir/" sep = true /\ PyStr.endswith "dir" sep = false /\
  PyStr.endswith "" sep = false.
Proof. repeat split. Qed.

Example drop_last_separator :
  PyStr.drop_last "dir/" = "dir"%string /\ PyStr.drop_last "" = ""%string.
Proof. repeat split. Qed.

Example last_segment_of_folder :
  PyStr.last_segment "a/b" sep = "b"%string /\ PyStr.last_segment "a/b/" sep = ""%string.
Proof. repeat split. Qed.

Lemma prefix_true_iff (p s : string) :
  String.prefix p s = true <-> exists t, s = (p ++ t)%string.
Proof.
  revert s; induction p as [|a p IH]; intros s; simpl.
  - split; [intros _; exists s; reflexivity | intros _; destruct s; reflexivity].
  - destruct s as [|b s].
    + split; [discriminate | intros [t H]; discriminate].
    + simpl. destruct (Ascii.ascii_dec a b) as [->|N].
      * rewrite IH. split; intros [t H]; exists t.
        -- now rewrite H.
        -- now inversion H.
      * split; [discriminate | intros [t H]; inversion H; subst; now elim N].
Qed.

Lemma key_matches_iff (key_name obj_name : string) :
  key_matches key_name obj_name = true <->
  obj_name = key_name \/ exists rest, obj_name = (key_name ++ sep ++ rest)%string.
Proof.
  unfold key_matches, PyStr.startswith.
  destruct (String.eqb_spec obj_name key_name) as [E|N].
  - split; [left; exact E | reflexivity].
  - destruct (String.prefix (key_name ++ sep) obj_name) eqn:P.
    + split; [intros _; right | reflexivity].
      apply prefix_true_iff in P. destruct P as [t ->]. exists t.
      clear. induction key_name; simpl; [reflexivity | now f_equal].
    + split; [discriminate |].
      intros [E | [t E]]; [contradiction |].
      assert (String.prefix (key_name ++ sep) obj_name = true) as P'.
      { apply prefix_true_iff. exists t. rewrite E. clear.
        induction key_name; simpl; [reflexivity | now f_equal]. }
      congruence.
Qed.

Lemma truthy_true_iff (s : string) : PyStr.truthy s = true <-> s <> ""%string.
Proof.
  unfold PyStr.truthy. destruct (String.eqb_spec s ""); simpl; split; congruence.
Qed.

(** ** Generators *)

Lemma seq_done {A} (xs ys : list A) (o : outcome) :
  Gen.seq (xs, Done) (ys, o) = (xs ++ ys, o).
Proof. reflexivity. Qed.

Lemma seq_yielded_Forall {A} (P : A -> Prop) (g k : gen A) :
  Forall P (fst g) -> Forall P (fst k) -> Forall P (fst (Gen.seq g k)).
Proof.
  intros Hg Hk. unfold Gen.seq. destruct (snd g); simpl; auto.
  apply Forall_app; split; assumption.
Qed.

Lemma for_list_Forall {A B} (P : B -> Prop) (body : A -> gen B) (l : list A) :
  (forall a, Forall P (fst (body a))) -> Forall P (fst (Gen.for_list l body)).
Proof.
  intros Hb. induction l as [|a l IH]; simpl; [constructor |].
  apply seq_yielded_Forall; auto.
Qed.

Lemma for_iter_Forall {A B} (P : B -> Prop) (body : A -> gen B) (it : iter A) :
  (forall a, Forall P (fst (body a))) -> Forall P (fst (Gen.for_iter it body)).
Proof.
  intros Hb. induction it as [|a it IH|e]; simpl; try constructor.
  apply seq_yielded_Forall; auto.
Qed.

(** A loop whose body always returns yields the bodies' entries in order. *)
Lemma for_list_total {A B} (body : A -> gen B) (l : list A) :
  (forall a, snd (body a) = Done) ->
  Gen.for_list l body = (flat_map (fun a => fst (body a)) l, Done).
Proof.
  intros Hb. induction l as [|a l IH]; simpl; [reflexivity |].
  rewrite IH. specialize (Hb a). destruct (body a) as [xs o]; simpl in *.
  subst o. reflexivity.
Qed.

Lemma for_iter_total {A B} (body : A -> gen B) (it : iter A) :
  (forall a, snd (body a) = Done) ->
  Gen.for_iter it body = (flat_map (fun a => fst (body a)) (iter_items it), iter_ending it).
Proof.
  intros Hb. induction it as [|a it IH|e]; simpl; try reflexivity.
  rewrite IH. specialize (Hb a). destruct (body a) as [xs o]; simpl in *.
  subst o. reflexivity.
Qed.

Lemma flat_map_yield {A B} (f : A -> B) (l : list A) :
  flat_map (fun a => fst (Gen.yield (f a))) l = map f l.
Proof. induction l as [|a l IH]; simpl in *; [reflexivity | now f_equal]. Qed.

Lemma existsb_of_map {A B} (p : B -> bool) (f : A -> B) (l : list A) :
  existsb p (map f l) = existsb (fun a => p (f a)) l.
Proof. induction l as [|a l IH]; simpl; [reflexivity | now rewrite IH]. Qed.

Lemma flat_map_map_inner {A B C} (f : B -> C) (g : A -> list B) (l : list A) :
  flat_map (fun a => map f (g a)) l = map f (flat_map g l).
Proof.
  induction l as [|a l IH]; simpl; [reflexivity |].
  now rewrite IH, map_app.
Qed.

(** ** The pagination loops *)

Lemma fetch_call (c : storage_Client) name prefix delimiter tok :
  (if token_truthy tok
   then client_list_blobs c name prefix delimiter tok
   else client_list_blobs c name prefix delimiter None)
  = client_list_blobs c name prefix delimiter (page_token_of tok).
Proof. unfold page_token_of. destruct (token_truthy tok); reflexivity. Qed.

Lemma blobs_of_pages (bucket : BucketGCS) (it : iter Page) :
  Gen.for_iter it (fun page =>
    Gen.for_list (page_items page) (fun item =>
      Gen.yield (BlobGCS_of_native (WrappedBucket bucket) item)))
  = (map (BlobGCS_of_native (WrappedBucket bucket)) (flat_map page_items (iter_items it)),
     iter_ending it).
Proof.
  rewrite for_iter_total.
  - f_equal. rewrite <- flat_map_map_inner. apply flat_map_ext. intros page.
    rewrite for_list_total by reflexivity. simpl. apply flat_map_yield.
  - intros page. now rewrite for_list_total.
Qed.

Lemma folder_entries_spec (folder : string) :
  folder_entries folder = (filter named [dir_entry_of folder], Done).
Proof.
  unfold folder_entries, dir_entry_of, named. simpl.
  destruct (PyStr.truthy _); reflexivity.
Qed.

Lemma item_entries_spec (item : storage_Blob) :
  item_entries item = (filter named [file_entry_of item], Done).
Proof.
  unfold item_entries, file_entry_of, named. simpl.
  destruct (PyStr.truthy _); reflexivity.
Qed.

Lemma flat_map_filter_map {A B} (p : B -> bool) (f : A -> B) (l : list A) :
  flat_map (fun a => filter p [f a]) l = filter p (map f l).
Proof.
  induction l as [|a l IH]; simpl in *; [reflexivity |].
  rewrite IH. destruct (p (f a)); reflexivity.
Qed.

Lemma scandir_page_spec (page : Page) :
  scandir_page page = (page_entries page, Done).
Proof.
  unfold scandir_page, page_entries.
  rewrite !for_list_total by (intros; now rewrite ?folder_entries_spec, ?item_entries_spec).
  rewrite seq_done. f_equal. f_equal.
  - rewrite <- flat_map_filter_map. apply flat_map_ext. intros a.
    now rewrite folder_entries_spec.
  - rewrite <- flat_map_filter_map. apply flat_map_ext. intros a.
    now rewrite item_entries_spec.
Qed.

Lemma entries_of_pages (it : iter Page) :
  Gen.for_iter it scandir_page = (flat_map page_entries (iter_items it), iter_ending it).
Proof.
  rewrite for_iter_total by (intros; now rewrite scandir_page_spec).
  f_equal. apply flat_map_ext. intros page. now rewrite scandir_page_spec.
Qed.

Lemma all_pages_cons (r : Response) (rs : list Response) :
  all_pages (r :: rs) = iter_items (pages r) ++ all_pages rs.
Proof. reflexivity. Qed.

Lemma all_items_cons (r : Response) (rs : list Response) :
  all_items (r :: rs) = flat_map page_items (iter_items (pages r)) ++ all_items rs.
Proof. unfold all_items. now rewrite all_pages_cons, flat_map_app. Qed.

(** Given enough fuel, the loop of [list_blobs] yields one record per item
    of the run, in order, and ends as the run does. *)
Lemma list_blobs_loop_run c path prefix delimiter bucket tok rs o :
  listing_run c (root path) prefix delimiter tok rs o ->
  forall fuel, length rs < fuel ->
  list_blobs_loop fuel c path prefix delimiter bucket tok
  = (map (BlobGCS_of_native (WrappedBucket bucket)) (all_items rs), o).
Proof.
  induction 1 as [tok r Hc Hp Hn | tok r t rs o Hc Hp Hn Hrun IH | tok e Hc | tok r e Hc Hp];
    intros [|fuel] Hf; simpl in Hf; try lia; simpl;
    rewrite fetch_call, Hc; try reflexivity;
    rewrite blobs_of_pages, Hp, ?Hn.
  - unfold Gen.seq, Gen.stop; simpl. now rewrite all_items_cons, !app_nil_r.
  - rewrite IH by lia. rewrite seq_done, all_items_cons. now rewrite map_app.
  - unfold Gen.seq; simpl. now rewrite all_items_cons, !app_nil_r.
Qed.

(** The same for the loop of [scandir], page by page. *)
Lemma scandir_loop_run c bucket prefix tok rs o :
  listing_run c (BucketGCS_name bucket) prefix (Some sep) tok rs o ->
  forall fuel, length rs < fuel ->
  scandir_loop fuel c bucket prefix tok = (flat_map page_entries (all_pages rs), o).
Proof.
  induction 1 as [tok r Hc Hp Hn | tok r t rs o Hc Hp Hn Hrun IH | tok e Hc | tok r e Hc Hp];
    intros [|fuel] Hf; simpl in Hf; try lia; simpl;
    rewrite fetch_call, Hc; try reflexivity;
    rewrite entries_of_pages, Hp, ?Hn.
  - unfold Gen.seq, Gen.stop; simpl. now rewrite !app_nil_r.
  - rewrite IH by lia. rewrite seq_done. now rewrite flat_map_app.
  - unfold Gen.seq; simpl. now rewrite !app_nil_r.
Qed.

(** ** [list_blobs] and [exists] *)

Lemma list_blobs_on_run fuel self c path prefix delimiter include_dirs bucket rs o :
  client self = Some c ->
  lookup_bucket self path = Ret (Some bucket) ->
  listing_run (obj c) (root path) prefix delimiter None rs o ->
  length rs < fuel ->
  list_blobs fuel self path prefix delimiter include_dirs
  = (map (BlobGCS_of_native (WrappedBucket bucket)) (all_items rs), o).
Proof.
  intros Hc Hl Hrun Hf. unfold list_blobs, Ret in *. rewrite Hc, Hl.
  now apply list_blobs_loop_run.
Qed.

Lemma exists_of_listing fuel self path :
  BucketClientGCS_exists fuel self path =
  let listing := list_blobs fuel self path None None false in
  if existsb (fun o => key_matches (key path) (BlobGCS_name o)) (fst listing)
  then Returns true
  else match snd listing with
       | Done => Returns false
       | Raised e => if is_gcs_client_error e then Returns false else Raises e
       | OutOfFuel => Timeout
       end.
Proof. reflexivity. Qed.

(** C7: for a path whose bucket is found, and a listing that runs to its
    end through the responses [rs] (one per continuation token), [list_blobs]
    returns after yielding exactly one record per object of every page, in
    the order of the pages and of the fetches, no record being folded into
    a directory; each record carries the bucket, and the owner, name, size,
    update time as epoch seconds and raw handle of its object. *)
Theorem list_blobs_one_record_per_object
  fuel self c path prefix delimiter include_dirs bucket rs :
  client self = Some c ->
  lookup_bucket self path = Ret (Some bucket) ->
  listing_run (obj c) (root path) prefix delimiter None rs Done ->
  length rs < fuel ->
  let listing := list_blobs fuel self path prefix delimiter include_dirs in
  Gen.ending listing = Done /\
  Forall2 (fun item b =>
             BlobGCS_bucket b = WrappedBucket bucket /\
             BlobGCS_owner b = blob_owner item /\
             BlobGCS_name b = blob_name item /\
             BlobGCS_size b = blob_size item /\
             BlobGCS_updated b = timestamp (blob_updated item) /\
             BlobGCS_raw b = Some item)
          (all_items rs) (Gen.yielded listing).
Proof.
  intros Hc Hl Hrun Hf listing. subst listing.
  rewrite (list_blobs_on_run fuel self c path prefix delimiter include_dirs
             bucket rs Done Hc Hl Hrun Hf).
  split; [reflexivity |].
  unfold Gen.yielded; simpl. induction (all_items rs) as [|item items IH]; simpl.
  - constructor.
  - constructor; [now repeat split | exact IH].
Qed.

(** C1: for a path whose root names an existing bucket, and a listing of
    that bucket that runs to its end, [exists] returns true if and only if
    some object key of the bucket equals the path's key or starts with the
    key followed by the separator; when no object does, it returns false. *)
Theorem exists_iff_key_or_directory fuel self c path bucket rs :
  client self = Some c ->
  lookup_bucket self path = Ret (Some bucket) ->
  listing_run (obj c) (root path) None None None rs Done ->
  length rs < fuel ->
  let hit :=
    exists item, In item (all_items rs) /\
      (blob_name item = key path \/
       exists rest, blob_name item = (key path ++ sep ++ rest)%string) in
  (BucketClientGCS_exists fuel self path = Returns true <-> hit) /\
  (~ hit -> BucketClientGCS_exists fuel self path = Returns false).
Proof.
  intros Hc Hl Hrun Hf hit.
  rewrite exists_of_listing.
  rewrite (list_blobs_on_run fuel self c path None None false bucket rs Done
             Hc Hl Hrun Hf).
  simpl.
  assert (existsb (fun o => key_matches (key path) (BlobGCS_name o))
            (map (BlobGCS_of_native (WrappedBucket bucket)) (all_items rs)) = true
          <-> hit) as E.
  { rewrite existsb_exists. subst hit. split.
    - intros [o [Hin Hm]]. apply in_map_iff in Hin. destruct Hin as [item [<- Hin]].
      exists item. split; [exact Hin |]. now apply key_matches_iff in Hm.
    - intros [item [Hin Hm]]. exists (BlobGCS_of_native (WrappedBucket bucket) item).
      split; [now apply in_map | now apply key_matches_iff]. }
  destruct (existsb _ _).
  - split; [split; [intros _; now apply E | reflexivity] |].
    intros N. elim N. now apply E.
  - split; [split; [discriminate | intros H; apply E in H; discriminate] |].
    reflexivity.
Qed.

(** C8: [exists] returns true as soon as a listed object matches, whatever
    the listing would do after it; and when the listing raises a
    client-class error, [exists] does not raise: it returns, and it returns
    false when no object listed before the error matched.  In terms of the
    collaborator: when a fetch of the listing raises a client-class error
    after the responses [rs], [exists] returns whether an object of [rs]
    matched. *)
Theorem exists_first_match_and_client_error fuel self path :
  let listing := list_blobs fuel self path None None false in
  (forall before o after,
      Gen.yielded listing = before ++ o :: after ->
      key_matches (key path) (BlobGCS_name o) = true ->
      BucketClientGCS_exists fuel self path = Returns true) /\
  (forall message code,
      Gen.ending listing = Raised (GcsClientError message code) ->
      (exists b, BucketClientGCS_exists fuel self path = Returns b) /\
      ((forall o, In o (Gen.yielded listing) ->
                  key_matches (key path) (BlobGCS_name o) = false) ->
       BucketClientGCS_exists fuel self path = Returns false)) /\
  (forall c bucket rs message code,
      client self = Some c ->
      lookup_bucket self path = Ret (Some bucket) ->
      listing_run (obj c) (root path) None None None rs
        (Raised (GcsClientError message code)) ->
      length rs < fuel ->
      BucketClientGCS_exists fuel self path
      = Returns (existsb (fun item => key_matches (key path) (blob_name item))
                   (all_items rs))).
Proof.
  intros listing. rewrite exists_of_listing. fold listing. cbv zeta.
  unfold Gen.yielded, Gen.ending. split; [| split].
  - intros before o after Hy Hm.
    assert (existsb (fun o => key_matches (key path) (BlobGCS_name o)) (fst listing)
            = true) as ->; [| reflexivity].
    apply existsb_exists. exists o. split; [| exact Hm].
    rewrite Hy. apply in_or_app. right. now left.
  - intros message code Hend. rewrite Hend. split.
    + destruct (existsb _ _); eexists; reflexivity.
    + intros Hno.
      assert (existsb (fun o => key_matches (key path) (BlobGCS_name o)) (fst listing)
              = false) as ->; [| reflexivity].
      apply not_true_is_false. intros E. apply existsb_exists in E.
      destruct E as [o [Hin Hm]]. rewrite (Hno o Hin) in Hm. discriminate.
  - intros c bucket rs message code Hc Hl Hrun Hf. subst listing.
    rewrite (list_blobs_on_run fuel self c path None None false bucket rs
               (Raised (GcsClientError message code)) Hc Hl Hrun Hf).
    simpl. rewrite existsb_of_map. simpl.
    destruct (existsb _ _); reflexivity.
Qed.

(** ** Buckets *)

(** C2: when the client has no bucket for the root of a path, [get_bucket]
    raises the not-found condition and [lookup_bucket] on the same path
    returns the absent value without raising. *)
Theorem get_bucket_raises_lookup_bucket_absent self c path :
  client self = Some c ->
  client_bucket (obj c) (root path) = Ret None ->
  get_bucket self path
  = Raise (FileNotFoundError ("Bucket " ++ root path ++ " does not exist!")%string) /\
  lookup_bucket self path = Ret None.
Proof.
  intros Hc Hb. unfold get_bucket, lookup_bucket, Ret in *.
  rewrite Hc, Hb. split; reflexivity.
Qed.

(** C10: when [copy_blob] succeeds (the blob has a raw handle and the
    collaborator returns a new object), the record it returns has the
    bucket [copy_blob] was invoked on in its bucket field, and not the
    target bucket when the two differ; the rest of the record is read from
    the new object. *)
Theorem copy_blob_keeps_source_bucket self blob target name raw native_blob :
  BlobGCS_raw blob = Some raw ->
  bucket_copy_blob (BucketGCS_bucket self) raw (BucketGCS_bucket target) name
  = Ret (Some native_blob) ->
  exists copied,
    copy_blob self blob target name = Ret (Some copied) /\
    BlobGCS_bucket copied = NativeBucket (BucketGCS_bucket self) /\
    BlobGCS_bucket copied <> WrappedBucket target /\
    (BucketGCS_bucket self <> BucketGCS_bucket target ->
     BlobGCS_bucket copied <> NativeBucket (BucketGCS_bucket target)) /\
    BlobGCS_name copied = blob_name native_blob /\
    BlobGCS_raw copied = Some native_blob.
Proof.
  intros Hraw Hcopy. unfold copy_blob, Ret in *. rewrite Hraw, Hcopy.
  eexists. split; [reflexivity |]. simpl. repeat split.
  - discriminate.
  - intros Hdiff Heq. apply Hdiff. now inversion Heq.
Qed.

(** C9: the constructor ignores its [client] argument: whatever is passed,
    the instance is the same; when the SDK is there and [storage.Client()]
    returns, the client of the instance is the object it has just made, at
    a new identity; it is [None] when the call raised or the SDK is
    missing; it is never an object the caller passed, such an object
    having been allocated before. *)
Theorem init_ignores_client_argument fresh storage client_arg :
  (forall other, BucketClientGCS_init fresh storage client_arg
                 = BucketClientGCS_init fresh storage other) /\
  (forall m c, storage = Some m -> storage_Client_new m = Ret c ->
               client (BucketClientGCS_init fresh storage client_arg)
               = Some {| addr := fresh; obj := c |}) /\
  (client (BucketClientGCS_init fresh storage client_arg) = None \/
   exists m c, storage = Some m /\ storage_Client_new m = Ret c /\
               client (BucketClientGCS_init fresh storage client_arg)
               = Some {| addr := fresh; obj := c |}) /\
  (forall supplied, client_arg = Some supplied -> addr supplied < fresh ->
                    client (BucketClientGCS_init fresh storage client_arg)
                    <> Some supplied) /\
  (storage = None -> client (BucketClientGCS_init fresh storage client_arg) = None) /\
  (forall m e, storage = Some m -> storage_Client_new m = Raise e ->
               client (BucketClientGCS_init fresh storage client_arg) = None).
Proof.
  unfold BucketClientGCS_init, Ret, Raise. repeat split.
  - intros m c -> ->. reflexivity.
  - destruct storage as [m|]; [| now left].
    destruct (storage_Client_new m) as [e|c] eqn:E; [now left |].
    right. exists m, c. repeat split; assumption.
  - intros supplied _ Hlt.
    destruct storage as [m|]; [| discriminate].
    destruct (storage_Client_new m) as [e|c]; [discriminate |].
    simpl. intros Heq. inversion Heq as [Hs]. subst supplied. simpl in Hlt. lia.
  - intros ->. reflexivity.
  - intros m e -> ->. reflexivity.
Qed.

(** ** [scandir] *)

Lemma lookup_bucket_name self path bucket :
  lookup_bucket self path = Ret (Some bucket) -> BucketGCS_name bucket = root path.
Proof.
  unfold lookup_bucket, Ret, Raise. destruct (client self) as [c|]; [| discriminate].
  destruct (client_bucket (obj c) (root path)) as [e|[native|]].
  - destruct (is_gcs_client_error e); discriminate.
  - intros H. inversion H. reflexivity.
  - discriminate.
Qed.

Lemma scandir_rooted fuel self c path prefix delimiter include_raw :
  client self = Some c ->
  PyStr.truthy (root path) = true ->
  scandir fuel self (Some path) prefix delimiter include_raw
  = match lookup_bucket self path with
    | inl e => Gen.raise e
    | inr None => Gen.stop
    | inr (Some bucket) => scandir_loop fuel (obj c) bucket prefix None
    end.
Proof. intros Hc Hr. unfold scandir. now rewrite Hc, Hr. Qed.

Lemma scandir_on_run fuel self c path prefix delimiter include_raw bucket rs o :
  client self = Some c ->
  PyStr.truthy (root path) = true ->
  lookup_bucket self path = Ret (Some bucket) ->
  listing_run (obj c) (root path) prefix (Some sep) None rs o ->
  length rs < fuel ->
  scandir fuel self (Some path) prefix delimiter include_raw
  = (flat_map page_entries (all_pages rs), o).
Proof.
  intros Hc Hr Hl Hrun Hf.
  rewrite (scandir_rooted fuel self c path prefix delimiter include_raw Hc Hr).
  pose proof (lookup_bucket_name self path bucket Hl) as Hn. unfold Ret in Hl. rewrite Hl.
  apply scandir_loop_run; [now rewrite Hn | exact Hf].
Qed.

(** C5: called with no path, or with a path whose root is empty, [scandir]
    yields one directory entry per bucket the client lists, in the order of
    that listing, and ends as the listing does (it returns once the buckets
    are exhausted); neither the prefix nor the delimiter (nor the fuel of
    the model) has any effect on it. *)
Theorem scandir_rootless_lists_buckets
  fuel self c path prefix delimiter include_raw buckets :
  client self = Some c ->
  (path = None \/ exists p, path = Some p /\ root p = ""%string) ->
  client_list_buckets (obj c) = Ret buckets ->
  let listing := scandir fuel self path prefix delimiter include_raw in
  Gen.yielded listing = map bucket_entry_of (iter_items buckets) /\
  Gen.ending listing = iter_ending buckets /\
  Forall (fun e => Entry_is_dir e = true) (Gen.yielded listing) /\
  (forall fuel' prefix' delimiter' include_raw',
      scandir fuel' self path prefix' delimiter' include_raw' = listing).
Proof.
  intros Hc Hp Hb listing.
  assert (forall fuel' prefix' delimiter' include_raw',
             scandir fuel' self path prefix' delimiter' include_raw'
             = (map bucket_entry_of (iter_items buckets), iter_ending buckets)) as E.
  { intros fuel' prefix' delimiter' include_raw'. unfold scandir, list_buckets.
    rewrite Hc. unfold Ret in Hb. rewrite Hb.
    assert ((match path with
             | None => true
             | Some p => negb (PyStr.truthy (root p))
             end) = true) as ->.
    { destruct Hp as [-> | [p [-> Hroot]]]; [reflexivity |]. now rewrite Hroot. }
    rewrite for_iter_total by reflexivity. now rewrite flat_map_yield. }
  subst listing. rewrite !E. unfold Gen.yielded, Gen.ending; simpl.
  repeat split; try reflexivity.
  - apply Forall_forall. intros e Hin. apply in_map_iff in Hin.
    destruct Hin as [b [<- _]]. reflexivity.
  - intros. apply E.
Qed.

(** C6, amended: on every page [scandir] processes, each common prefix is
    stripped of its trailing separator and split on the separator, and its
    last segment names a directory entry, skipped when empty; each item
    whose key has a non-empty last separator-segment becomes a file entry
    named by that segment, carrying the item's size and its modification
    time as epoch seconds; an item whose last segment is empty is skipped
    too.  The entries of a listing are those of its pages, in order. *)
Theorem scandir_entries_of_pages
  fuel self c path prefix delimiter include_raw bucket rs o :
  client self = Some c ->
  PyStr.truthy (root path) = true ->
  lookup_bucket self path = Ret (Some bucket) ->
  listing_run (obj c) (root path) prefix (Some sep) None rs o ->
  length rs < fuel ->
  (forall page, scandir_page page = (page_entries page, Done)) /\
  scandir fuel self (Some path) prefix delimiter include_raw
  = (flat_map page_entries (all_pages rs), o).
Proof.
  intros Hc Hr Hl Hrun Hf. split; [exact scandir_page_spec |].
  now apply scandir_on_run with (c := c) (bucket := bucket).
Qed.

(** C3, amended: a client-class error raised by the lookup of the bucket
    makes [scandir] (on a path with a root) and [list_blobs] yield zero
    entries and return; an error raised by a fetch of the listing itself,
    client-class or not, is not caught: the call yields the entries of the
    pages fetched before it and then raises it to the caller. *)
Theorem listing_errors fuel self c path prefix delimiter flag :
  client self = Some c ->
  PyStr.truthy (root path) = true ->
  (forall message code,
      client_bucket (obj c) (root path) = Raise (GcsClientError message code) ->
      scandir fuel self (Some path) prefix delimiter flag = ([], Done) /\
      list_blobs fuel self path prefix delimiter flag = ([], Done)) /\
  (forall bucket rs e,
      lookup_bucket self path = Ret (Some bucket) ->
      listing_run (obj c) (root path) prefix (Some sep) None rs (Raised e) ->
      length rs < fuel ->
      scandir fuel self (Some path) prefix delimiter flag
      = (flat_map page_entries (all_pages rs), Raised e)) /\
  (forall bucket rs e,
      lookup_bucket self path = Ret (Some bucket) ->
      listing_run (obj c) (root path) prefix delimiter None rs (Raised e) ->
      length rs < fuel ->
      list_blobs fuel self path prefix delimiter flag
      = (map (BlobGCS_of_native (WrappedBucket bucket)) (all_items rs), Raised e)).
Proof.
  intros Hc Hr. split; [| split].
  - intros message code Hb.
    rewrite (scandir_rooted fuel self c path prefix delimiter flag Hc Hr).
    unfold list_blobs, lookup_bucket, Raise in *. rewrite Hc, Hb. simpl.
    split; reflexivity.
  - intros bucket rs e Hl Hrun Hf.
    now apply scandir_on_run with (c := c) (bucket := bucket).
  - intros bucket rs e Hl Hrun Hf.
    now apply list_blobs_on_run with (c := c).
Qed.

Lemma page_entries_named (page : Page) : Forall (fun e => named e = true) (page_entries page).
Proof.
  unfold page_entries. apply Forall_app. split; apply Forall_forall; intros e Hin;
    now apply filter_In in Hin.
Qed.

Lemma scandir_loop_named fuel c bucket prefix tok :
  Forall (fun e => named e = true) (fst (scandir_loop fuel c bucket prefix tok)).
Proof.
  revert tok. induction fuel as [|fuel IH]; intros tok; simpl; [constructor |].
  rewrite fetch_call.
  destruct (client_list_blobs c (BucketGCS_name bucket) prefix (Some sep) (page_token_of tok))
    as [e|response]; [constructor |].
  apply seq_yielded_Forall.
  - apply for_iter_Forall. intros page. rewrite scandir_page_spec.
    apply page_entries_named.
  - destruct (next_page_token response); [apply IH | constructor].
Qed.

Lemma list_blobs_loop_raw fuel c path prefix delimiter bucket tok :
  Forall (fun b => exists item, BlobGCS_raw b = Some item /\ BlobGCS_name b = blob_name item)
         (fst (list_blobs_loop fuel c path prefix delimiter bucket tok)).
Proof.
  revert tok. induction fuel as [|fuel IH]; intros tok; simpl; [constructor |].
  rewrite fetch_call.
  destruct (client_list_blobs c (root path) prefix delimiter (page_token_of tok))
    as [e|response]; [constructor |].
  apply seq_yielded_Forall.
  - apply for_iter_Forall. intros page. apply for_list_Forall. intros item.
    constructor; [| constructor]. exists item. now split.
  - destruct (next_page_token response); [apply IH | constructor].
Qed.

(** C4, amended: every entry [scandir] yields for a path with a root has a
    non-empty name, the common prefixes and the items whose computed name
    is empty being skipped; [list_blobs] filters nothing: the name of every
    record it yields is the full key of its object, non-empty exactly
    when that key is. *)
Theorem listing_names fuel self path prefix delimiter flag :
  PyStr.truthy (root path) = true ->
  Forall (fun e => Entry_name e <> ""%string)
         (Gen.yielded (scandir fuel self (Some path) prefix delimiter flag)) /\
  Forall (fun b => exists item,
              BlobGCS_raw b = Some item /\ BlobGCS_name b = blob_name item /\
              (BlobGCS_name b <> ""%string <-> blob_name item <> ""%string))
         (Gen.yielded (list_blobs fuel self path prefix delimiter flag)).
Proof.
  intros Hr. unfold Gen.yielded. split.
  - unfold scandir. destruct (client self) as [c|]; [| constructor].
    rewrite Hr. simpl.
    destruct (lookup_bucket self path) as [e|[bucket|]]; try constructor.
    eapply Forall_impl; [| apply scandir_loop_named].
    intros e He. now apply truthy_true_iff.
  - unfold list_blobs. destruct (client self) as [c|]; [| constructor].
    destruct (lookup_bucket self path) as [e|[bucket|]]; try constructor.
    eapply Forall_impl; [| apply list_blobs_loop_raw].
    intros b [item [Hraw Hname]]. exists item. repeat split; try assumption;
      now rewrite Hname.
Qed.

(** ** Fuel *)

(** More fuel only extends what the loop of [list_blobs] yields, and
    changes nothing once the loop has ended. *)
Lemma list_blobs_loop_more_fuel c path prefix delimiter bucket n :
  forall m tok, n <= m ->
    let short := list_blobs_loop n c path prefix delimiter bucket tok in
    let long := list_blobs_loop m c path prefix delimiter bucket tok in
    (exists more, fst long = fst short ++ more) /\
    (snd short <> OutOfFuel -> long = short).
Proof.
  induction n as [|n IH]; intros m tok Hle; cbv zeta.
  - simpl. split; [eexists; reflexivity | intros H; now elim H].
  - destruct m as [|m]; [lia |]. simpl. rewrite fetch_call.
    destruct (client_list_blobs c (root path) prefix delimiter (page_token_of tok))
      as [e|response]; [split; [exists []; reflexivity | reflexivity] |].
    rewrite blobs_of_pages. unfold Gen.seq. simpl.
    destruct (iter_ending (pages response));
      try (split; [exists []; simpl; now rewrite !app_nil_r | reflexivity]).
    destruct (next_page_token response) as [t|];
      [| split; [exists []; simpl; now rewrite !app_nil_r | reflexivity]].
    destruct (IH m (Some t) ltac:(lia)) as [[more Hmore] Hsame]. split.
    + exists more. rewrite Hmore. now rewrite app_assoc.
    + intros Hend. now rewrite (Hsame Hend).
Qed.

(** Once [exists] has returned with some fuel, it returns the same with
    any more: it never needed the rest of the listing. *)
Lemma exists_more_fuel n m self path b :
  n <= m ->
  BucketClientGCS_exists n self path = Returns b ->
  BucketClientGCS_exists m self path = Returns b.
Proof.
  intros Hle. rewrite !exists_of_listing. unfold list_blobs. cbv zeta.
  destruct (client self) as [c|]; [| trivial].
  destruct (lookup_bucket self path) as [e|[bucket|]]; trivial.
  destruct (list_blobs_loop_more_fuel (obj c) path None None bucket n m None Hle)
    as [[more Hmore] Hsame].
  destruct (existsb _ (fst (list_blobs_loop n _ _ _ _ _ _))) eqn:Hn.
  - intros H. rewrite Hmore, existsb_app, Hn. exact H.
  - intros H. rewrite Hsame; [now rewrite Hn |].
    intros Hout. rewrite Hout in H. discriminate.
Qed.

End GCS.

(** The types of the SDK's values are read off the arguments. *)
Arguments blob_name {Owner DateTime} s.
Arguments blob_owner {Owner DateTime} s.
Arguments blob_size {Owner DateTime} s.
Arguments blob_updated {Owner DateTime} s.
Arguments prefixes {Owner DateTime} p.
Arguments page_items {Owner DateTime} p.
Arguments pages {Owner DateTime} r.
Arguments next_page_token {Owner DateTime} r.
Arguments client_bucket {Owner DateTime} s _.
Arguments client_list_blobs {Owner DateTime} s _ _ _ _.
Arguments client_list_buckets {Owner DateTime} s.
Arguments storage_Client_new {Owner DateTime} s.
Arguments client {Owner DateTime} b.
Arguments BlobGCS_bucket {Owner DateTime Timestamp} b.
Arguments BlobGCS_owner {Owner DateTime Timestamp} b.
Arguments BlobGCS_name {Owner DateTime Timestamp} b.
Arguments BlobGCS_raw {Owner DateTime Timestamp} b.
Arguments BlobGCS_size {Owner DateTime Timestamp} b.
Arguments BlobGCS_updated {Owner DateTime Timestamp} b.
Arguments Entry_name {Owner DateTime Timestamp} b.
Arguments Entry_is_dir {Owner DateTime Timestamp} b.
Arguments Entry_size {Owner DateTime Timestamp} b.
Arguments Entry_last_modified {Owner DateTime Timestamp} b.
Arguments Entry_raw {Owner DateTime Timestamp} b.
Arguments BlobGCS_of_native {Owner DateTime Timestamp} timestamp bucket native_blob.
Arguments get_blob {Owner DateTime Timestamp} timestamp bucket_get_blob self blob_name.
Arguments copy_blob {Owner DateTime Timestamp} timestamp bucket_copy_blob self blob target name.
Arguments BucketClientGCS_init {Owner DateTime} fresh storage client_arg.
Arguments lookup_bucket {Owner DateTime} self path.
Arguments get_bucket {Owner DateTime} self path.
Arguments list_buckets {Owner DateTime} self.
Arguments scandir_page {Owner DateTime Timestamp} timestamp page.
Arguments scandir {Owner DateTime Timestamp} timestamp fuel self path prefix delimiter include_raw.
Arguments list_blobs {Owner DateTime Timestamp} timestamp fuel self path prefix delimiter include_dirs.
Arguments BucketClientGCS_exists {Owner DateTime Timestamp} timestamp fuel self path.
Arguments listing_run {Owner DateTime} c name prefix delimiter _ _ _.
Arguments run_last {Owner DateTime} c name prefix delimiter tok r _ _ _.
Arguments run_next {Owner DateTime} c name prefix delimiter tok r t rs o _ _ _ _.
Arguments run_fetch_raises {Owner DateTime} c name prefix delimiter tok e _.
Arguments run_pages_raise {Owner DateTime} c name prefix delimiter tok r e _ _.
Arguments all_pages {Owner DateTime} rs.
Arguments all_items {Owner DateTime} rs.
Arguments page_entries {Owner DateTime Timestamp} timestamp page.
Arguments page_entries_as_claimed {Owner DateTime Timestamp} timestamp page.
Arguments bucket_entry_of {Owner DateTime Timestamp} bucket.

(** ** A concrete client *)

Module Fixtures.

Local Open Scope Z_scope.

(** Datetimes as milliseconds since the epoch, timestamps as whole
    seconds. *)
Definition ts (d : Z) : Z := d / 1000.

Definition blob (name : string) (size updated : Z) : storage_Blob string Z :=
  {| blob_name := name; blob_owner := "alice"; blob_size := size;
     blob_updated := updated |}.

Definition page (folders : list string) (items : list (storage_Blob string Z))
  : Page string Z :=
  {| prefixes := folders; page_items := items |}.

Definition first_flat : Response string Z :=
  {| pages := ICons (page [] [blob "a/b.txt" 10 1000; blob "a/c.txt" 20 2000]) INil;
     next_page_token := Some "t2" |}.

Definition second_flat : Response string Z :=
  {| pages := ICons (page [] [blob "f.txt" 30 3000]) INil;
     next_page_token := None |}.

Definition folded : Response string Z :=
  {| pages := ICons (page ["a/"] [blob "f.txt" 30 3000]) INil;
     next_page_token := None |}.

(** The listing of bucket [data], holding [a/b.txt], [a/c.txt] and [f.txt]:
    flat in two pages without a delimiter, folded in one page with one. *)
Definition list_data (delimiter page_token : option string)
  : result (Response string Z) :=
  match delimiter, page_token with
  | None, None => Ret first_flat
  | None, Some t =>
      if String.eqb t "t2" then Ret second_flat
      else Raise (GcsClientError "invalid page token" 400)
  | Some _, _ => Ret folded
  end.

(** The listing of bucket [flaky]: a first page, then the service fails. *)
Definition list_flaky (page_token : option string) : result (Response string Z) :=
  match page_token with
  | None =>
      Ret {| pages := ICons (page [] [blob "x.txt" 1 1000]) INil;
             next_page_token := Some "t2" |}
  | Some _ => Raise (GcsClientError "backend unavailable" 503)
  end.

(** The listing of bucket [dirs] under prefix [dir/]: the placeholder
    object [dir/] itself and one file. *)
Definition list_dirs : Response string Z :=
  {| pages := ICons (page [] [blob "dir/" 0 1000; blob "dir/x.txt" 1 2000]) INil;
     next_page_token := None |}.

(** The listing of bucket [odd]: the service hands out an object with an
    empty key. *)
Definition list_odd : Response string Z :=
  {| pages := ICons (page [] [blob "" 0 1000]) INil; next_page_token := None |}.

Definition sdk : storage_Client string Z :=
  {| client_bucket := fun name =>
       if String.eqb name "denied" then Raise (GcsClientError "forbidden" 403)
       else if String.eqb name "ghost" then Ret None
       else Ret (Some {| bucket_name := name |});
     client_list_blobs := fun name prefix delimiter page_token =>
       if String.eqb name "data" then list_data delimiter page_token
       else if String.eqb name "flaky" then list_flaky page_token
       else if String.eqb name "dirs" then Ret list_dirs
       else if String.eqb name "odd" then Ret list_odd
       else Raise (GcsClientError "no such bucket" 404);
     client_list_buckets :=
       Ret (ICons {| bucket_name := "data" |} (ICons {| bucket_name := "dirs" |} INil)) |}.

Definition the_client : located (storage_Client string Z) := {| addr := 7; obj := sdk |}.

Definition gcs : BucketClientGCS string Z := {| client := Some the_client |}.

Definition at_ (bucket key : string) : PurePathy := {| root := bucket; key := key |}.

(** [storage.Bucket.copy_blob]: the copy takes the new name. *)
Definition copy_into (source : storage_Bucket) (raw : storage_Blob string Z)
  (target : storage_Bucket) (name : string) : result (option (storage_Blob string Z)) :=
  Ret (Some (blob name (blob_size raw) (blob_updated raw))).

Definition wrapped (name : string) : BucketGCS :=
  {| BucketGCS_name := name; BucketGCS_bucket := {| bucket_name := name |} |}.

End Fixtures.

(** ** Instances of the theorems on the concrete client *)

Import Fixtures.

Lemma data_run_flat :
  listing_run sdk "data" None None None [first_flat; second_flat] Done.
Proof.
  apply run_next with (t := "t2"); try reflexivity.
  apply run_last; reflexivity.
Qed.

Lemma data_run_folded :
  listing_run sdk "data" None (Some sep) None [folded] Done.
Proof. apply run_last; reflexivity. Qed.

Lemma flaky_run (delimiter : option string) :
  listing_run sdk "flaky" None delimiter None
    [{| pages := ICons (page [] [blob "x.txt" 1 1000]) INil; next_page_token := Some "t2" |}]
    (Raised (GcsClientError "backend unavailable" 503)).
Proof.
  apply run_next with (t := "t2"); try reflexivity.
  apply run_fetch_raises. reflexivity.
Qed.

Lemma list_blobs_one_record_per_object_witness :
  let listing := list_blobs ts 3 gcs (at_ "data" "a") None None false in
  Gen.ending listing = Done /\
  Forall2 (fun item b =>
             BlobGCS_bucket b = WrappedBucket (wrapped "data") /\
             BlobGCS_owner b = blob_owner item /\
             BlobGCS_name b = blob_name item /\
             BlobGCS_size b = blob_size item /\
             BlobGCS_updated b = ts (blob_updated item) /\
             BlobGCS_raw b = Some item)
          (all_items [first_flat; second_flat]) (Gen.yielded listing).
Proof.
  apply (list_blobs_one_record_per_object string Z Z ts 3 gcs the_client
           (at_ "data" "a") None None false (wrapped "data") [first_flat; second_flat]).
  - reflexivity.
  - reflexivity.
  - exact data_run_flat.
  - simpl. lia.
Defined.

Lemma exists_iff_key_or_directory_witness :
  let hit :=
    exists item, In item (all_items [first_flat; second_flat]) /\
      (blob_name item = "a"%string \/
       exists rest, blob_name item = ("a" ++ sep ++ rest)%string) in
  (BucketClientGCS_exists ts 3 gcs (at_ "data" "a") = Returns true <-> hit) /\
  (~ hit -> BucketClientGCS_exists ts 3 gcs (at_ "data" "a") = Returns false).
Proof.
  apply (exists_iff_key_or_directory string Z Z ts 3 gcs the_client
           (at_ "data" "a") (wrapped "data") [first_flat; second_flat]).
  - reflexivity.
  - reflexivity.
  - exact data_run_flat.
  - simpl. lia.
Defined.

Lemma exists_first_match_and_client_error_witness :
  BucketClientGCS_exists ts 3 gcs (at_ "flaky" "x.txt") = Returns true /\
  BucketClientGCS_exists ts 3 gcs (at_ "flaky" "y") = Returns false /\
  BucketClientGCS_exists ts 1 gcs (at_ "void" "y") = Returns false.
Proof.
  split; [| split].
  - apply (proj1 (exists_first_match_and_client_error string Z Z ts 3 gcs
                    (at_ "flaky" "x.txt")))
      with (before := []) (after := [])
           (o := BlobGCS_of_native ts (WrappedBucket (wrapped "flaky"))
                   (blob "x.txt" 1 1000));
      reflexivity.
  - apply (proj1 (proj2 (exists_first_match_and_client_error string Z Z ts 3 gcs
                           (at_ "flaky" "y")))) with
        (message := "backend unavailable"%string) (code := 503%Z).
    + reflexivity.
    + intros o [<- | []]. reflexivity.
  - apply (proj2 (proj2 (exists_first_match_and_client_error string Z Z ts 1 gcs
                           (at_ "void" "y")))) with
        (c := the_client) (bucket := wrapped "void") (rs := [])
        (message := "no such bucket"%string) (code := 404%Z);
      try reflexivity.
    + apply run_fetch_raises. reflexivity.
    + simpl. lia.
Defined.

Lemma get_bucket_raises_lookup_bucket_absent_witness :
  get_bucket gcs (at_ "ghost" "a")
  = Raise (FileNotFoundError "Bucket ghost does not exist!") /\
  lookup_bucket gcs (at_ "ghost" "a") = Ret None.
Proof.
  apply (get_bucket_raises_lookup_bucket_absent string Z gcs the_client (at_ "ghost" "a"));
    reflexivity.
Defined.

Lemma copy_blob_keeps_source_bucket_witness :
  exists copied,
    copy_blob ts copy_into (wrapped "data")
      (BlobGCS_of_native ts (WrappedBucket (wrapped "data")) (blob "f.txt" 30 3000))
      (wrapped "dirs") "g.txt"
    = Ret (Some copied) /\
    BlobGCS_bucket copied = NativeBucket {| bucket_name := "data" |} /\
    BlobGCS_bucket copied <> WrappedBucket (wrapped "dirs") /\
    ({| bucket_name := "data" |} <> {| bucket_name := "dirs" |} ->
     BlobGCS_bucket copied <> NativeBucket {| bucket_name := "dirs" |}) /\
    BlobGCS_name copied = "g.txt"%string /\
    BlobGCS_raw copied = Some (blob "g.txt" 30 3000).
Proof.
  apply (copy_blob_keeps_source_bucket string Z Z ts copy_into (wrapped "data")
           (BlobGCS_of_native ts (WrappedBucket (wrapped "data"))
              (blob "f.txt" 30 3000))
           (wrapped "dirs") "g.txt" (blob "f.txt" 30 3000) (blob "g.txt" 30 3000));
    reflexivity.
Defined.

Lemma init_ignores_client_argument_witness :
  client (BucketClientGCS_init 8 (Some {| storage_Client_new := Ret sdk |})
                (Some the_client))
  = Some {| addr := 8; obj := sdk |} /\
  client (BucketClientGCS_init 8 (Some {| storage_Client_new := Ret sdk |})
                (Some the_client))
  <> Some the_client /\
  client (BucketClientGCS_init 8
            (Some {| storage_Client_new := Raise DefaultCredentialsError |})
            (Some the_client))
  = None.
Proof.
  split; [| split].
  - apply (proj1 (proj2 (init_ignores_client_argument string Z 8
                           (Some {| storage_Client_new := Ret sdk |})
                           (Some the_client))))
      with (m := {| storage_Client_new := Ret sdk |}); reflexivity.
  - apply (proj1 (proj2 (proj2 (proj2 (init_ignores_client_argument string Z 8
                                         (Some {| storage_Client_new := Ret sdk |})
                                         (Some the_client)))))).
    + reflexivity.
    + simpl. lia.
  - apply (proj2 (proj2 (proj2 (proj2 (proj2 (init_ignores_client_argument string Z 8
             (Some {| storage_Client_new := Raise DefaultCredentialsError |})
             (Some the_client)))))))
      with (m := {| storage_Client_new := Raise DefaultCredentialsError |})
           (e := DefaultCredentialsError); reflexivity.
Defined.

Lemma scandir_rootless_lists_buckets_witness :
  let listing := scandir ts 0 gcs (Some (at_ "" "a")) (Some "a/"%string) None false in
  Gen.yielded listing
  = map (@bucket_entry_of string Z Z) [{| bucket_name := "data" |}; {| bucket_name := "dirs" |}] /\
  Gen.ending listing = Done /\
  Forall (fun e => Entry_is_dir e = true) (Gen.yielded listing) /\
  (forall fuel' prefix' delimiter' include_raw',
      scandir ts fuel' gcs (Some (at_ "" "a")) prefix' delimiter' include_raw'
      = listing).
Proof.
  apply (scandir_rootless_lists_buckets string Z Z ts 0 gcs the_client
           (Some (at_ "" "a")) (Some "a/"%string) None false
           (ICons {| bucket_name := "data" |} (ICons {| bucket_name := "dirs" |} INil))).
  - reflexivity.
  - right. exists (at_ "" "a"). split; reflexivity.
  - reflexivity.
Defined.

Lemma scandir_entries_of_pages_witness :
  (forall page : Page string Z, scandir_page ts page = (page_entries ts page, Done)) /\
  scandir ts 2 gcs (Some (at_ "data" "")) None None false
  = (flat_map (page_entries ts) (all_pages [folded]), Done).
Proof.
  apply (scandir_entries_of_pages string Z Z ts 2 gcs the_client (at_ "data" "")
           None None false (wrapped "data") [folded] Done).
  - reflexivity.
  - reflexivity.
  - reflexivity.
  - exact data_run_folded.
  - simpl. lia.
Defined.

Lemma listing_errors_witness :
  (scandir ts 2 gcs (Some (at_ "denied" "")) None None false = ([], Done) /\
   list_blobs ts 2 gcs (at_ "denied" "") None None false = ([], Done)) /\
  Gen.ending (scandir ts 2 gcs (Some (at_ "flaky" "")) None None false)
  = Raised (GcsClientError "backend unavailable" 503) /\
  Gen.ending (list_blobs ts 2 gcs (at_ "flaky" "") None None false)
  = Raised (GcsClientError "backend unavailable" 503).
Proof.
  split; [| split].
  - apply (proj1 (listing_errors string Z Z ts 2 gcs the_client (at_ "denied" "")
                    None None false eq_refl eq_refl))
      with (message := "forbidden"%string) (code := 403%Z).
    reflexivity.
  - rewrite (proj1 (proj2 (listing_errors string Z Z ts 2 gcs the_client (at_ "flaky" "")
                             None None false eq_refl eq_refl))
               (wrapped "flaky") _ _ eq_refl (flaky_run (Some sep)));
      [reflexivity | simpl; lia].
  - rewrite (proj2 (proj2 (listing_errors string Z Z ts 2 gcs the_client (at_ "flaky" "")
                             None None false eq_refl eq_refl))
               (wrapped "flaky") _ _ eq_refl (flaky_run None));
      [reflexivity | simpl; lia].
Defined.

Lemma listing_names_witness :
  Forall (fun e => Entry_name e <> ""%string)
         (Gen.yielded (scandir ts 2 gcs (Some (at_ "dirs" "")) (Some "dir/"%string)
                         None false)) /\
  Forall (fun b => exists item,
              BlobGCS_raw b = Some item /\ BlobGCS_name b = blob_name item /\
              (BlobGCS_name b <> ""%string <-> blob_name item <> ""%string))
         (Gen.yielded (list_blobs ts 2 gcs (at_ "dirs" "") (Some "dir/"%string)
                         None false)).
Proof.
  apply (listing_names string Z Z ts 2 gcs (at_ "dirs" "") (Some "dir/"%string) None false).
  reflexivity.
Defined.

(** ** Where the claims as worded fail *)

(** C3 as worded fails: on bucket [flaky] the second fetch raises a
    client-class error; [list_blobs] and [scandir] have then yielded one
    entry each, not zero, and both end by raising that error. *)
Lemma listing_error_propagates :
  let blobs := list_blobs ts 3 gcs (at_ "flaky" "") None None false in
  let entries := scandir ts 3 gcs (Some (at_ "flaky" "")) None None false in
  Gen.ending blobs = Raised (GcsClientError "backend unavailable" 503) /\
  length (Gen.yielded blobs) = 1 /\
  Gen.ending entries = Raised (GcsClientError "backend unavailable" 503) /\
  length (Gen.yielded entries) = 1.
Proof. repeat split. Qed.

(** C4 as worded fails for [list_blobs]: the object [dir/], whose key is
    the prefix of the listing and whose last segment is empty, is dropped by
    [scandir] but yielded by [list_blobs]; and an object the service lists
    under an empty key gives a record with an empty name. *)
Lemma list_blobs_does_not_filter :
  PyStr.last_segment "dir/" sep = ""%string /\
  map Entry_name
      (Gen.yielded (scandir ts 2 gcs (Some (at_ "dirs" "")) (Some "dir/"%string)
                      None false))
  = ["x.txt"%string] /\
  map BlobGCS_name
      (Gen.yielded (list_blobs ts 2 gcs (at_ "dirs" "") (Some "dir/"%string)
                      None false))
  = ["dir/"%string; "dir/x.txt"%string] /\
  map BlobGCS_name
      (Gen.yielded (list_blobs ts 2 gcs (at_ "odd" "") None None false))
  = [""%string].
Proof. repeat split. Qed.

(** C6 as worded fails: not every item of a page becomes a file entry; the
    item [dir/], whose last segment is empty, gives none. *)
Lemma scandir_page_skips_unnamed_items :
  let p := page [] [blob "dir/" 0 1000] in
  Gen.yielded (scandir_page ts p) = [] /\
  length (page_entries_as_claimed ts p) = 1 /\
  Gen.yielded (scandir_page ts p) <> page_entries_as_claimed ts p.
Proof. repeat split. discriminate. Qed.

(** * Further properties of the adapter *)

(** ** The last segment of a key *)

(** Whether the separator occurs in a string. *)
Fixpoint has_sep (s : string) : bool :=
  match s with
  | EmptyString => false
  | String c rest => if Ascii.eqb c "/" then true else has_sep rest
  end.

Lemma prefix_sep_cons (c : ascii) (rest : string) :
  String.prefix sep (String c rest) = Ascii.eqb c "/".
Proof.
  unfold sep. cbn [String.prefix].
  destruct (Ascii.ascii_dec "/" c) as [<-|N].
  - destruct rest; reflexivity.
  - symmetry. apply Ascii.eqb_neq. congruence.
Qed.

Lemma split_from_not_nil (sp : string) (s : string) :
  forall skip cur, PyStr.split_from sp skip cur s <> [].
Proof.
  induction s as [|c rest IH]; intros skip cur; [simpl; intros H; discriminate H |].
  cbn [PyStr.split_from].
  destruct skip as [|k]; [| apply IH].
  destruct (String.prefix sp (String c rest)); [intros H; discriminate H | apply IH].
Qed.

Lemma last_cons_cons {A} (x : A) (l : list A) (d : A) :
  l <> [] -> List.last (x :: l) d = List.last l d.
Proof. destruct l; [congruence | reflexivity]. Qed.

Lemma append_nil_r (s : string) : (s ++ "")%string = s.
Proof. induction s; simpl; [reflexivity | now f_equal]. Qed.

Lemma append_assoc (a b c : string) : ((a ++ b) ++ c)%string = (a ++ (b ++ c))%string.
Proof. induction a; simpl; [reflexivity | now f_equal]. Qed.

Lemma has_sep_append (a b : string) :
  has_sep (a ++ b) = has_sep a || has_sep b.
Proof.
  induction a as [|c a IH]; simpl; [reflexivity |].
  destruct (Ascii.eqb c "/"); [reflexivity | exact IH].
Qed.

(** The last segment is what follows the last separator: the string is a
    directory part, empty or ending with the separator, and then the
    segment, which holds no separator. *)
Lemma last_split_from_decomposes (s : string) :
  forall cur, has_sep cur = false ->
    let name := List.last (PyStr.split_from sep 0 cur s) "" in
    has_sep name = false /\
    exists dir, (cur ++ s)%string = (dir ++ name)%string /\
                (dir = ""%string \/ exists parent, dir = (parent ++ sep)%string).
Proof.
  induction s as [|c rest IH]; intros cur Hcur; cbv zeta.
  - simpl. split; [exact Hcur |]. exists ""%string. split; [apply append_nil_r | now left].
  - cbn [PyStr.split_from]. rewrite prefix_sep_cons.
    destruct (Ascii.eqb_spec c "/") as [->|Hc].
    + change (String.length sep - 1) with 0.
      rewrite last_cons_cons by apply split_from_not_nil.
      destruct (IH ""%string eq_refl) as [Hname [dir [Hdec Hdir]]]. simpl in Hdec.
      split; [exact Hname |].
      exists (cur ++ sep ++ dir)%string. split.
      * rewrite !append_assoc. f_equal. simpl. f_equal. exact Hdec.
      * right. destruct Hdir as [-> | [parent ->]].
        -- exists cur. now rewrite append_nil_r.
        -- exists (cur ++ sep ++ parent)%string. now rewrite !append_assoc.
    + assert (has_sep (cur ++ String c "") = false) as Hcur'.
      { rewrite has_sep_append, Hcur. simpl. now destruct (Ascii.eqb_spec c "/"). }
      destruct (IH _ Hcur') as [Hname [dir [Hdec Hdir]]].
      split; [exact Hname |]. exists dir. split; [| exact Hdir].
      rewrite <- Hdec. now rewrite append_assoc.
Qed.

Lemma last_split_from_trailing (k : string) :
  forall cur, List.last (PyStr.split_from sep 0 cur (k ++ sep)) "" = ""%string.
Proof.
  induction k as [|c k IH]; intros cur.
  - reflexivity.
  - change ((String c k ++ sep)%string) with (String c (k ++ sep)).
    cbn [PyStr.split_from]. rewrite prefix_sep_cons.
    destruct (Ascii.eqb c "/").
    + change (String.length sep - 1) with 0.
      rewrite last_cons_cons by apply split_from_not_nil. apply IH.
    + apply IH.
Qed.

Lemma append_eq_empty (a b : string) : (a ++ b)%string = ""%string -> a = ""%string /\ b = ""%string.
Proof. destruct a; simpl; [now split | discriminate]. Qed.

(** The computed name of a key is empty exactly when the key is empty or
    ends with the separator. *)
Lemma last_segment_empty_iff (s : string) :
  PyStr.last_segment s sep = ""%string <->
  s = ""%string \/ exists k, s = (k ++ sep)%string.
Proof.
  unfold PyStr.last_segment, PyStr.split. split.
  - intros Hlast.
    destruct (last_split_from_decomposes s ""%string eq_refl) as [_ [dir [Hdec Hdir]]].
    rewrite Hlast, append_nil_r in Hdec. simpl in Hdec. subst dir. exact Hdir.
  - intros [-> | [k ->]]; [reflexivity | apply last_split_from_trailing].
Qed.

Lemma length_append (a b : string) :
  String.length (a ++ b) = String.length a + String.length b.
Proof. induction a; simpl; [reflexivity | now f_equal]. Qed.

Lemma substring_whole (t : string) : String.substring 0 (String.length t) t = t.
Proof. induction t; simpl; [reflexivity | now f_equal]. Qed.

Lemma substring_front (k t : string) : String.substring 0 (String.length k) (k ++ t) = k.
Proof.
  induction k as [|c k IH]; simpl; [now destruct t | now f_equal].
Qed.

Lemma substring_back (k t : string) :
  String.substring (String.length k) (String.length t) (k ++ t) = t.
Proof. induction k as [|c k IH]; simpl; [apply substring_whole | exact IH]. Qed.

Lemma string_snoc (s : string) :
  s <> ""%string -> exists k c, s = (k ++ String c "")%string.
Proof.
  induction s as [|a s IH]; [congruence | intros _].
  destruct s as [|b s].
  - exists ""%string, a. reflexivity.
  - destruct IH as [k [c Hk]]; [discriminate |].
    exists (String a k), c. simpl. now rewrite <- Hk.
Qed.

(** [s.endswith(sep)] holds exactly for the strings that end with it. *)
Lemma endswith_sep_iff (s : string) :
  PyStr.endswith s sep = true <-> exists k, s = (k ++ sep)%string.
Proof.
  unfold PyStr.endswith. change (String.length sep) with 1. split.
  - destruct (String.eqb_spec s "") as [->|Hne]; [discriminate |].
    destruct (string_snoc s Hne) as [k [c ->]].
    rewrite length_append. simpl String.length.
    replace (String.length k + 1 - 1) with (String.length k) by lia.
    replace (Nat.leb 1 (String.length k + 1)) with true
      by (symmetry; apply Nat.leb_le; lia).
    pose proof (substring_back k (String c "")) as Hback.
    cbn [String.length] in Hback. rewrite Hback.
    intros E. apply String.eqb_eq in E. exists k. now rewrite E.
  - intros [k ->]. rewrite length_append. change (String.length sep) with 1.
    replace (String.length k + 1 - 1) with (String.length k) by lia.
    replace (Nat.leb 1 (String.length k + 1)) with true
      by (symmetry; apply Nat.leb_le; lia).
    pose proof (substring_back k sep) as Hback.
    change (String.length sep) with 1 in Hback. rewrite Hback.
    apply String.eqb_refl.
Qed.

(** [(k + sep)[:-1]] is [k]. *)
Lemma drop_last_sep (k : string) : PyStr.drop_last (k ++ sep) = k.
Proof.
  unfold PyStr.drop_last. rewrite length_append. change (String.length sep) with 1.
  replace (String.length k + 1 - 1) with (String.length k) by lia.
  apply substring_front.
Qed.

Arguments item_entries {Owner DateTime Timestamp} timestamp item.
Arguments folder_entries {Owner DateTime Timestamp} folder.
Arguments file_entry_of {Owner DateTime Timestamp} timestamp item.
Arguments dir_entry_of {Owner DateTime Timestamp} folder.
Arguments named {Owner DateTime Timestamp} e.
Arguments scandir_loop {Owner DateTime Timestamp} timestamp fuel c bucket prefix continuation_token.
Arguments list_blobs_loop {Owner DateTime Timestamp} timestamp fuel c path prefix delimiter bucket continuation_token.

Section Further.

Context {Owner DateTime Timestamp : Type}.
Variable timestamp : DateTime -> Timestamp.
Variable bucket_get_blob :
  storage_Bucket -> string -> result (option (storage_Blob Owner DateTime)).
Variable bucket_copy_blob :
  storage_Bucket -> storage_Blob Owner DateTime -> storage_Bucket -> string ->
  result (option (storage_Blob Owner DateTime)).
Variable bucket_exists : storage_Bucket -> result bool.

(** ** The error policy of [BucketGCS] *)

(** X1: [get_blob] gives the absent value exactly when the SDK finds no
    object or raises a client-class error; it gives a record exactly when
    the SDK finds an object, the record being read from that object and
    carrying the SDK's bucket; and it raises exactly the errors of the SDK
    that are not client-class. *)
Theorem get_blob_outcomes (self : BucketGCS) (name : string) :
  let found := bucket_get_blob (BucketGCS_bucket self) name in
  (get_blob timestamp bucket_get_blob self name = Ret None <->
   found = Ret None \/ exists message code, found = Raise (GcsClientError message code)) /\
  (forall b, get_blob timestamp bucket_get_blob self name = Ret (Some b) <->
             exists native_blob,
               found = Ret (Some native_blob) /\
               b = BlobGCS_of_native timestamp (NativeBucket (BucketGCS_bucket self))
                     native_blob) /\
  (forall e, get_blob timestamp bucket_get_blob self name = Raise e <->
             found = Raise e /\ is_gcs_client_error e = false).
Proof.
  intros found. unfold get_blob. fold found. unfold Ret, Raise.
  destruct found as [e|[native_blob|]].
  - destruct (is_gcs_client_error e) eqn:He.
    + split; [| split].
      * split; [intros _; right | reflexivity].
        destruct e; try discriminate He. eauto.
      * intros b. split; [intros H; discriminate H | intros [nb [H _]]; discriminate H].
      * intros e'. split; [intros H; discriminate H |].
        intros [H1 H2]. inversion H1. subst e'. congruence.
    + split; [| split].
      * split; [intros H; discriminate H |].
        intros [H | [message [code H]]]; [discriminate H |].
        inversion H. subst e. discriminate He.
      * intros b. split; [intros H; discriminate H | intros [nb [H _]]; discriminate H].
      * intros e'. split; [| intros [H _]; now inversion H].
        intros H. inversion H. subst e'. now split.
  - split; [| split].
    + split; [intros H; discriminate H |].
      intros [H | [message [code H]]]; discriminate H.
    + intros b. split.
      * intros H. inversion H. exists native_blob. now split.
      * intros [nb [H ->]]. now inversion H.
    + intros e. split; [intros H; discriminate H | intros [H _]; discriminate H].
  - split; [| split].
    + split; [intros _; now left | reflexivity].
    + intros b. split; [intros H; discriminate H | intros [nb [H _]]; discriminate H].
    + intros e. split; [intros H; discriminate H | intros [H _]; discriminate H].
Qed.

(** X2: the existence check of a bucket answers as the SDK does, and false
    when the SDK raises a client-class error; it raises only the errors of
    the SDK that are not client-class. *)
Theorem bucket_exists_outcomes (self : BucketGCS) :
  let answer := bucket_exists (BucketGCS_bucket self) in
  (BucketGCS_exists bucket_exists self = Ret true <-> answer = Ret true) /\
  (BucketGCS_exists bucket_exists self = Ret false <->
   answer = Ret false \/ exists message code, answer = Raise (GcsClientError message code)) /\
  (forall e, BucketGCS_exists bucket_exists self = Raise e <->
             answer = Raise e /\ is_gcs_client_error e = false).
Proof.
  intros answer. unfold BucketGCS_exists. fold answer. unfold Ret, Raise.
  destruct answer as [e|[|]].
  - destruct (is_gcs_client_error e) eqn:He.
    + split; [| split].
      * split; intros H; discriminate H.
      * split; [intros _; right | reflexivity].
        destruct e; try discriminate He. eauto.
      * intros e'. split; [intros H; discriminate H |].
        intros [H1 H2]. inversion H1. subst e'. congruence.
    + split; [| split].
      * split; intros H; discriminate H.
      * split; [intros H; discriminate H |].
        intros [H | [message [code H]]]; [discriminate H |].
        inversion H. subst e. discriminate He.
      * intros e'. split; [| intros [H _]; exact H].
        intros H. inversion H. subst e'. now split.
  - split; [| split].
    + split; reflexivity.
    + split; [intros H; discriminate H |].
      intros [H | [message [code H]]]; discriminate H.
    + intros e. split; [intros H; discriminate H | intros [H _]; discriminate H].
  - split; [| split].
    + split; intros H; discriminate H.
    + split; [intros _; now left | reflexivity].
    + intros e. split; [intros H; discriminate H | intros [H _]; discriminate H].
Qed.

(** X3: [copy_blob] fails in exactly two ways: with [AssertionError] when
    the blob has no raw handle, whatever the SDK would do, and with the
    error of the SDK, unchanged, when the copy raises; a client-class error
    is not turned into an absent value here.  It gives the absent value
    exactly when the SDK returns no object. *)
Theorem copy_blob_failures (self : BucketGCS) (blob : BlobGCS Owner DateTime Timestamp)
  (target : BucketGCS) (name : string) :
  (forall e, copy_blob timestamp bucket_copy_blob self blob target name = Raise e <->
             (BlobGCS_raw blob = None /\ e = AssertionError) \/
             exists raw, BlobGCS_raw blob = Some raw /\
                         bucket_copy_blob (BucketGCS_bucket self) raw
                           (BucketGCS_bucket target) name = Raise e) /\
  (copy_blob timestamp bucket_copy_blob self blob target name = Ret None <->
   exists raw, BlobGCS_raw blob = Some raw /\
               bucket_copy_blob (BucketGCS_bucket self) raw
                 (BucketGCS_bucket target) name = Ret None).
Proof.
  unfold copy_blob, Ret, Raise. destruct (BlobGCS_raw blob) as [raw|].
  - destruct (bucket_copy_blob (BucketGCS_bucket self) raw (BucketGCS_bucket target) name)
      as [e0|[native_blob|]] eqn:Hcopy; split.
    + intros e. split.
      * intros H. inversion H. subst. right. exists raw. now split.
      * intros [[H _] | [raw' [H1 H2]]]; [discriminate H |].
        inversion H1. subst raw'. rewrite Hcopy in H2. now inversion H2.
    + split; [intros H; discriminate H |].
      intros [raw' [H1 H2]]. inversion H1. subst raw'. rewrite Hcopy in H2. discriminate H2.
    + intros e. split; [intros H; discriminate H |].
      intros [[H _] | [raw' [H1 H2]]]; [discriminate H |].
      inversion H1. subst raw'. rewrite Hcopy in H2. discriminate H2.
    + split; [intros H; discriminate H |].
      intros [raw' [H1 H2]]. inversion H1. subst raw'. rewrite Hcopy in H2. discriminate H2.
    + intros e. split; [intros H; discriminate H |].
      intros [[H _] | [raw' [H1 H2]]]; [discriminate H |].
      inversion H1. subst raw'. rewrite Hcopy in H2. discriminate H2.
    + split; [intros _; exists raw; now split | reflexivity].
  - split.
    + intros e. split.
      * intros H. inversion H. now left.
      * intros [[_ ->] | [raw [H _]]]; [reflexivity | discriminate H].
    + split; [intros H; discriminate H | intros [raw [H _]]; discriminate H].
Qed.

(** ** Buckets and the client *)

(** X4: [get_bucket] returns a bucket exactly when [lookup_bucket] finds
    that bucket. *)
Theorem get_bucket_iff_lookup_bucket (self : BucketClientGCS Owner DateTime)
  (path : PurePathy) (b : BucketGCS) :
  get_bucket self path = Ret b <-> lookup_bucket self path = Ret (Some b).
Proof.
  unfold get_bucket, lookup_bucket, Ret, Raise.
  destruct (client self) as [c|]; [| split; intros H; discriminate H].
  destruct (client_bucket (obj c) (root path)) as [e|[native_bucket|]].
  - destruct e; simpl; split; intros H; discriminate H.
  - split; intros H; inversion H; reflexivity.
  - split; intros H; discriminate H.
Qed.

(** X5: neither [get_bucket] nor [lookup_bucket] lets a client-class error
    of the SDK through: [get_bucket] raises the adapter's own [ClientError]
    with the same message and code, [lookup_bucket] returns the absent
    value; any other error of the SDK comes out of both unchanged. *)
Theorem bucket_lookup_error_translation (self : BucketClientGCS Owner DateTime)
  (path : PurePathy) :
  (forall message code, get_bucket self path <> Raise (GcsClientError message code)) /\
  (forall message code, lookup_bucket self path <> Raise (GcsClientError message code)) /\
  (forall c message code,
      client self = Some c ->
      client_bucket (obj c) (root path) = Raise (GcsClientError message code) ->
      get_bucket self path = Raise (ClientError message code) /\
      lookup_bucket self path = Ret None) /\
  (forall c e,
      client self = Some c ->
      client_bucket (obj c) (root path) = Raise e ->
      is_gcs_client_error e = false ->
      get_bucket self path = Raise e /\ lookup_bucket self path = Raise e).
Proof.
  unfold get_bucket, lookup_bucket, Ret, Raise. split; [| split; [| split]].
  - intros message code.
    destruct (client self) as [c|]; [| intros H; discriminate H].
    destruct (client_bucket (obj c) (root path)) as [e|[native_bucket|]];
      try (intros H; discriminate H).
    destruct e; intros H; discriminate H.
  - intros message code.
    destruct (client self) as [c|]; [| intros H; discriminate H].
    destruct (client_bucket (obj c) (root path)) as [e|[native_bucket|]];
      try (intros H; discriminate H).
    destruct e; simpl; intros H; discriminate H.
  - intros c message code Hc Hb. rewrite Hc, Hb. split; reflexivity.
  - intros c e Hc Hb He. rewrite Hc, Hb, He. split; [| reflexivity].
    destruct e; try reflexivity. discriminate He.
Qed.

(** X6: an instance made while the SDK is missing, or while
    [storage.Client()] raises, has no client, and the operations on it fail
    their assertion: the lookups raise [AssertionError] and the listings
    raise it before yielding anything.  When the SDK is there and only the
    construction of the client raised, [exists] raises [AssertionError] too
    rather than answering false; nothing is said of [exists] without the
    SDK, where the error class its [except] clause names is unbound. *)
Theorem operations_without_client_assert (fresh : nat)
  (storage : option (storage_module Owner DateTime))
  (client_arg : option (located (storage_Client Owner DateTime))) :
  (storage = None \/
   exists m e, storage = Some m /\ storage_Client_new m = Raise e) ->
  let self := BucketClientGCS_init fresh storage client_arg in
  forall fuel path prefix delimiter flag,
    lookup_bucket self path = Raise AssertionError /\
    get_bucket self path = Raise AssertionError /\
    list_buckets self = Raise AssertionError /\
    scandir timestamp fuel self (Some path) prefix delimiter flag
    = ([], Raised AssertionError) /\
    scandir timestamp fuel self None prefix delimiter flag = ([], Raised AssertionError) /\
    list_blobs timestamp fuel self path prefix delimiter flag
    = ([], Raised AssertionError) /\
    ((exists m e, storage = Some m /\ storage_Client_new m = Raise e) ->
     BucketClientGCS_exists timestamp fuel self path = Raises AssertionError).
Proof.
  intros Hstorage self fuel path prefix delimiter flag.
  assert (client self = None) as Hc.
  { subst self. unfold BucketClientGCS_init, Raise in *.
    destruct Hstorage as [-> | [m [e [-> Hnew]]]]; [reflexivity |].
    now rewrite Hnew. }
  unfold lookup_bucket, get_bucket, list_buckets, scandir, BucketClientGCS_exists,
    list_blobs. rewrite Hc. repeat split.
Qed.

(** X7: when the SDK has no bucket for the root of a path, or raises a
    client-class error while looking it up, [list_blobs] and [scandir] yield
    nothing and return, and [exists] answers false, all without a single
    fetch: with any fuel, and whatever the listing of the SDK would do. *)
Theorem missing_bucket_lists_nothing (self : BucketClientGCS Owner DateTime)
  (c : located (storage_Client Owner DateTime)) (path : PurePathy) :
  client self = Some c ->
  (client_bucket (obj c) (root path) = Ret None \/
   exists message code,
     client_bucket (obj c) (root path) = Raise (GcsClientError message code)) ->
  forall fuel prefix delimiter flag,
    list_blobs timestamp fuel self path prefix delimiter flag = ([], Done) /\
    (PyStr.truthy (root path) = true ->
     scandir timestamp fuel self (Some path) prefix delimiter flag = ([], Done)) /\
    BucketClientGCS_exists timestamp fuel self path = Returns false.
Proof.
  intros Hc Hb fuel prefix delimiter flag.
  assert (lookup_bucket self path = Ret None) as Hl.
  { unfold lookup_bucket, Ret, Raise in *. rewrite Hc.
    destruct Hb as [-> | [message [code ->]]]; reflexivity. }
  assert (forall prefix' delimiter' flag',
             list_blobs timestamp fuel self path prefix' delimiter' flag' = ([], Done)) as E.
  { intros. unfold list_blobs, Ret in *. now rewrite Hc, Hl. }
  split; [apply E | split].
  - intros Hr.
    rewrite (scandir_rooted Owner DateTime Timestamp timestamp fuel self c path
               prefix delimiter flag Hc Hr).
    unfold Ret in Hl. now rewrite Hl.
  - rewrite (exists_of_listing Owner DateTime Timestamp timestamp). now rewrite E.
Qed.

(** ** [exists] *)

Lemma seq_keeps_yielded {A} (g k : gen A) (x : A) :
  In x (fst g) -> In x (fst (Gen.seq g k)).
Proof.
  intros Hin. unfold Gen.seq. destruct (snd g); simpl; try exact Hin.
  apply in_or_app. now left.
Qed.

(** X8: [exists] answers true from the first response alone when an object
    of its pages matches: it needs one fetch, and nothing the SDK would do
    afterwards (the pages raising after the match, a later fetch failing, a
    listing that never ends) changes the answer. *)
Theorem exists_answers_from_first_response
  (fuel : nat) (self : BucketClientGCS Owner DateTime)
  (c : located (storage_Client Owner DateTime)) (path : PurePathy) (bucket : BucketGCS)
  (r : Response Owner DateTime) (item : storage_Blob Owner DateTime) :
  client self = Some c ->
  lookup_bucket self path = Ret (Some bucket) ->
  client_list_blobs (obj c) (root path) None None None = Ret r ->
  In item (flat_map page_items (iter_items (pages r))) ->
  key_matches (key path) (blob_name item) = true ->
  BucketClientGCS_exists timestamp (S fuel) self path = Returns true.
Proof.
  intros Hc Hl Hfetch Hin Hm.
  rewrite (exists_of_listing Owner DateTime Timestamp timestamp). cbv zeta.
  assert (existsb (fun o => key_matches (key path) (BlobGCS_name o))
            (fst (list_blobs timestamp (S fuel) self path None None false)) = true) as ->;
    [| reflexivity].
  apply existsb_exists.
  exists (BlobGCS_of_native timestamp (WrappedBucket bucket) item). split; [| exact Hm].
  unfold list_blobs, Ret in *. rewrite Hc, Hl. cbn [list_blobs_loop].
  rewrite (fetch_call Owner DateTime). unfold page_token_of. cbn [token_truthy].
  rewrite Hfetch. rewrite (blobs_of_pages Owner DateTime Timestamp timestamp).
  apply seq_keeps_yielded. simpl. now apply in_map.
Qed.

(** X9: an error of the listing that is not client-class is not turned
    into an answer: when no object listed before it matched, [exists] raises
    it. *)
Theorem exists_raises_other_errors
  (fuel : nat) (self : BucketClientGCS Owner DateTime)
  (c : located (storage_Client Owner DateTime)) (path : PurePathy) (bucket : BucketGCS)
  (rs : list (Response Owner DateTime)) (e : exn) :
  client self = Some c ->
  lookup_bucket self path = Ret (Some bucket) ->
  listing_run (obj c) (root path) None None None rs (Raised e) ->
  length rs < fuel ->
  is_gcs_client_error e = false ->
  (forall item, In item (all_items rs) -> key_matches (key path) (blob_name item) = false) ->
  BucketClientGCS_exists timestamp fuel self path = Raises e.
Proof.
  intros Hc Hl Hrun Hf He Hno.
  rewrite (exists_of_listing Owner DateTime Timestamp timestamp).
  rewrite (list_blobs_on_run Owner DateTime Timestamp timestamp fuel self c path
             None None false bucket rs (Raised e) Hc Hl Hrun Hf).
  simpl. rewrite existsb_of_map. simpl.
  assert (existsb (fun item => key_matches (key path) (blob_name item)) (all_items rs)
          = false) as ->.
  { apply not_true_is_false. intros E. apply existsb_exists in E.
    destruct E as [item [Hin Hm]]. rewrite (Hno item Hin) in Hm. discriminate. }
  now rewrite He.
Qed.

(** X10: the root of a bucket does not exist for [exists]: for a path with
    an empty key, the answer is false whenever no object of the bucket has
    an empty key or a key that begins with the separator, however many
    objects the bucket holds. *)
Theorem exists_of_bucket_root_is_false
  (fuel : nat) (self : BucketClientGCS Owner DateTime)
  (c : located (storage_Client Owner DateTime)) (path : PurePathy) (bucket : BucketGCS)
  (rs : list (Response Owner DateTime)) :
  client self = Some c ->
  lookup_bucket self path = Ret (Some bucket) ->
  key path = ""%string ->
  listing_run (obj c) (root path) None None None rs Done ->
  length rs < fuel ->
  (forall item, In item (all_items rs) ->
                blob_name item <> ""%string /\
                PyStr.startswith (blob_name item) sep = false) ->
  BucketClientGCS_exists timestamp fuel self path = Returns false.
Proof.
  intros Hc Hl Hkey Hrun Hf Hkeys.
  rewrite (exists_of_listing Owner DateTime Timestamp timestamp).
  rewrite (list_blobs_on_run Owner DateTime Timestamp timestamp fuel self c path
             None None false bucket rs Done Hc Hl Hrun Hf).
  simpl. rewrite existsb_of_map. simpl.
  assert (existsb (fun item => key_matches (key path) (blob_name item)) (all_items rs)
          = false) as ->; [| reflexivity].
  apply not_true_is_false. intros E. apply existsb_exists in E.
  destruct E as [item [Hin Hm]]. destruct (Hkeys item Hin) as [Hne Hstart].
  rewrite Hkey in Hm. unfold key_matches in Hm. simpl in Hm.
  destruct (String.eqb_spec (blob_name item) ""); [contradiction |].
  change ("" ++ sep)%string with sep in Hm. rewrite Hstart in Hm. discriminate.
Qed.

(** ** A continuation token that is the empty string *)

(** The loops test the token for truth before a fetch and for [None] after
    it, so a response whose token is the empty string does not end the
    listing and sends the next fetch out without a page token. *)
Lemma list_blobs_loop_restarts (c : storage_Client Owner DateTime) (path : PurePathy)
  (prefix delimiter : option string) (bucket : BucketGCS) (r : Response Owner DateTime) :
  client_list_blobs c (root path) prefix delimiter None = Ret r ->
  iter_ending (pages r) = Done ->
  next_page_token r = Some ""%string ->
  forall fuel tok, page_token_of tok = None ->
    list_blobs_loop timestamp fuel c path prefix delimiter bucket tok
    = (concat (repeat (map (BlobGCS_of_native timestamp (WrappedBucket bucket))
                         (flat_map page_items (iter_items (pages r)))) fuel),
       OutOfFuel).
Proof.
  intros Hfetch Hend Hnext. induction fuel as [|fuel IH]; intros tok Htok; [reflexivity |].
  cbn [list_blobs_loop]. rewrite (fetch_call Owner DateTime), Htok.
  unfold Ret in Hfetch. rewrite Hfetch.
  rewrite (blobs_of_pages Owner DateTime Timestamp timestamp), Hend, Hnext.
  rewrite (IH (Some ""%string) eq_refl). reflexivity.
Qed.

Lemma scandir_loop_restarts (c : storage_Client Owner DateTime) (bucket : BucketGCS)
  (prefix : option string) (r : Response Owner DateTime) :
  client_list_blobs c (BucketGCS_name bucket) prefix (Some sep) None = Ret r ->
  iter_ending (pages r) = Done ->
  next_page_token r = Some ""%string ->
  forall fuel tok, page_token_of tok = None ->
    scandir_loop timestamp fuel c bucket prefix tok
    = (concat (repeat (flat_map (page_entries timestamp) (iter_items (pages r))) fuel),
       OutOfFuel).
Proof.
  intros Hfetch Hend Hnext. induction fuel as [|fuel IH]; intros tok Htok; [reflexivity |].
  cbn [scandir_loop]. rewrite (fetch_call Owner DateTime), Htok.
  unfold Ret in Hfetch. rewrite Hfetch.
  rewrite (entries_of_pages Owner DateTime Timestamp timestamp), Hend, Hnext.
  rewrite (IH (Some ""%string) eq_refl). reflexivity.
Qed.

(** X11: when the first response of a listing carries the empty string as
    its token, [list_blobs] never returns: every round fetches the first
    response again and yields its records again, so with fuel [n] the
    records of the response are yielded [n] times and the loop is still
    running. *)
Theorem list_blobs_restarts_on_empty_token
  (self : BucketClientGCS Owner DateTime) (c : located (storage_Client Owner DateTime))
  (path : PurePathy) (prefix delimiter : option string) (flag : bool)
  (bucket : BucketGCS) (r : Response Owner DateTime) :
  client self = Some c ->
  lookup_bucket self path = Ret (Some bucket) ->
  client_list_blobs (obj c) (root path) prefix delimiter None = Ret r ->
  iter_ending (pages r) = Done ->
  next_page_token r = Some ""%string ->
  forall fuel,
    list_blobs timestamp fuel self path prefix delimiter flag
    = (concat (repeat (map (BlobGCS_of_native timestamp (WrappedBucket bucket))
                         (flat_map page_items (iter_items (pages r)))) fuel),
       OutOfFuel).
Proof.
  intros Hc Hl Hfetch Hend Hnext fuel. unfold list_blobs, Ret in *. rewrite Hc, Hl.
  apply list_blobs_loop_restarts; try assumption. reflexivity.
Qed.

(** X12: the same for [scandir]: with the empty string as token of the
    first response, the entries of that response are yielded over and
    over. *)
Theorem scandir_restarts_on_empty_token
  (self : BucketClientGCS Owner DateTime) (c : located (storage_Client Owner DateTime))
  (path : PurePathy) (prefix delimiter : option string) (flag : bool)
  (bucket : BucketGCS) (r : Response Owner DateTime) :
  client self = Some c ->
  PyStr.truthy (root path) = true ->
  lookup_bucket self path = Ret (Some bucket) ->
  client_list_blobs (obj c) (root path) prefix (Some sep) None = Ret r ->
  iter_ending (pages r) = Done ->
  next_page_token r = Some ""%string ->
  forall fuel,
    scandir timestamp fuel self (Some path) prefix delimiter flag
    = (concat (repeat (flat_map (page_entries timestamp) (iter_items (pages r))) fuel),
       OutOfFuel).
Proof.
  intros Hc Hr Hl Hfetch Hend Hnext fuel.
  rewrite (scandir_rooted Owner DateTime Timestamp timestamp fuel self c path
             prefix delimiter flag Hc Hr).
  pose proof (lookup_bucket_name Owner DateTime self path bucket Hl) as Hn.
  unfold Ret in Hl. rewrite Hl.
  apply scandir_loop_restarts; try assumption; [now rewrite Hn | reflexivity].
Qed.

(** X13: on such a listing [exists] never answers false: when no object of
    the first response matches, it is still running whatever the fuel. *)
Theorem exists_never_returns_on_empty_token
  (self : BucketClientGCS Owner DateTime) (c : located (storage_Client Owner DateTime))
  (path : PurePathy) (bucket : BucketGCS) (r : Response Owner DateTime) :
  client self = Some c ->
  lookup_bucket self path = Ret (Some bucket) ->
  client_list_blobs (obj c) (root path) None None None = Ret r ->
  iter_ending (pages r) = Done ->
  next_page_token r = Some ""%string ->
  (forall item, In item (flat_map page_items (iter_items (pages r))) ->
                key_matches (key path) (blob_name item) = false) ->
  forall fuel, BucketClientGCS_exists timestamp fuel self path = Timeout.
Proof.
  intros Hc Hl Hfetch Hend Hnext Hno fuel.
  rewrite (exists_of_listing Owner DateTime Timestamp timestamp).
  unfold list_blobs. rewrite Hc. unfold Ret in Hl. rewrite Hl.
  rewrite (list_blobs_loop_restarts (obj c) path None None bucket r Hfetch Hend Hnext
             fuel None eq_refl).
  cbv zeta. cbn [fst snd].
  assert (existsb (fun o => key_matches (key path) (BlobGCS_name o))
            (concat (repeat (map (BlobGCS_of_native timestamp (WrappedBucket bucket))
                               (flat_map page_items (iter_items (pages r)))) fuel))
          = false) as ->; [| reflexivity].
  apply not_true_is_false. intros E. apply existsb_exists in E.
  destruct E as [o [Hin Hm]]. apply in_concat in Hin. destruct Hin as [l [Hl' Hin]].
  apply repeat_spec in Hl'. subst l. apply in_map_iff in Hin.
  destruct Hin as [item [<- Hin]]. simpl in Hm. rewrite (Hno item Hin) in Hm. discriminate.
Qed.

(** ** The names [scandir] gives *)

Lemma last_segment_decomposes (s : string) :
  has_sep (PyStr.last_segment s sep) = false /\
  exists dir, s = (dir ++ PyStr.last_segment s sep)%string /\
              (dir = ""%string \/ exists parent, dir = (parent ++ sep)%string).
Proof. exact (last_split_from_decomposes s ""%string eq_refl). Qed.

(** A key that names nothing under its directory: the empty key, or a key
    ending with the separator, as the placeholder object of a directory has. *)
Definition placeholder (k : string) : bool :=
  String.eqb k "" || PyStr.endswith k sep.

Lemma truthy_last_segment (k : string) :
  PyStr.truthy (PyStr.last_segment k sep) = negb (placeholder k).
Proof.
  unfold PyStr.truthy, placeholder. f_equal.
  destruct (String.eqb_spec (PyStr.last_segment k sep) "") as [E|N].
  - apply last_segment_empty_iff in E. symmetry. apply orb_true_iff.
    destruct E as [-> | Hk]; [now left | right; now apply endswith_sep_iff].
  - symmetry. apply not_true_is_false. intros H. apply N. apply last_segment_empty_iff.
    apply orb_true_iff in H. destruct H as [H | H].
    + left. now apply String.eqb_eq.
    + right. now apply endswith_sep_iff.
Qed.

Lemma filter_map_swap {A B} (p : B -> bool) (q : A -> bool) (f : A -> B) (l : list A) :
  (forall a, p (f a) = q a) -> filter p (map f l) = map f (filter q l).
Proof.
  intros H. induction l as [|a l IH]; simpl; [reflexivity |].
  rewrite H, IH. now destruct (q a).
Qed.

Lemma page_entries_without_placeholders (page : Page Owner DateTime) :
  page_entries timestamp page
  = filter named (map dir_entry_of (prefixes page))
    ++ map (file_entry_of timestamp)
         (filter (fun item => negb (placeholder (blob_name item))) (page_items page)).
Proof.
  unfold page_entries. f_equal. apply filter_map_swap. intros item.
  unfold named, file_entry_of. simpl. apply truthy_last_segment.
Qed.

(** X14: of the items of a page, [scandir] skips exactly the placeholders
    (the keys that are empty or end with the separator) and gives a file
    entry to every other item, in order, after the directory entries of the
    page. *)
Theorem scandir_page_skips_exactly_placeholders (page : Page Owner DateTime) :
  scandir_page timestamp page
  = (filter named (map dir_entry_of (prefixes page))
     ++ map (file_entry_of timestamp)
          (filter (fun item => negb (placeholder (blob_name item))) (page_items page)),
     Done).
Proof.
  rewrite (scandir_page_spec Owner DateTime Timestamp timestamp).
  now rewrite page_entries_without_placeholders.
Qed.

(** X15: a common prefix [k/] gives the directory entry named by the last
    segment of [k], and none when [k] is empty or itself ends with the
    separator (only one trailing separator is stripped); a common prefix
    that does not end with the separator is named by its own last
    segment. *)
Theorem folder_entry_of_common_prefix (k : string) :
  Gen.yielded (@folder_entries Owner DateTime Timestamp (k ++ sep))
  = (if placeholder k then []
     else [{| Entry_name := PyStr.last_segment k sep; Entry_is_dir := true;
              Entry_size := None; Entry_last_modified := None; Entry_raw := None |}]) /\
  (PyStr.endswith k sep = false ->
   Gen.yielded (@folder_entries Owner DateTime Timestamp k)
   = (if String.eqb k "" then []
      else [{| Entry_name := PyStr.last_segment k sep; Entry_is_dir := true;
               Entry_size := None; Entry_last_modified := None; Entry_raw := None |}])).
Proof.
  unfold Gen.yielded, folder_entries. split.
  - assert (PyStr.endswith (k ++ sep) sep = true) as -> by (apply endswith_sep_iff; eauto).
    rewrite drop_last_sep, truthy_last_segment. now destruct (placeholder k).
  - intros Hend. rewrite Hend, truthy_last_segment. unfold placeholder. rewrite Hend.
    rewrite orb_false_r. now destruct (String.eqb k "").
Qed.

(** What every entry of a listing of objects looks like: a name that is not
    empty and holds no separator; for a directory nothing else, for a file
    the size, the time and the handle of an object whose key is a
    directory part followed by that name. *)
Definition entry_well_formed (e : BucketEntryGCS Owner DateTime Timestamp) : Prop :=
  Entry_name e <> ""%string /\
  has_sep (Entry_name e) = false /\
  ((Entry_is_dir e = true /\ Entry_size e = None /\
    Entry_last_modified e = None /\ Entry_raw e = None) \/
   (Entry_is_dir e = false /\
    exists item dir,
      Entry_raw e = Some item /\
      Entry_size e = Some (blob_size item) /\
      Entry_last_modified e = Some (timestamp (blob_updated item)) /\
      blob_name item = (dir ++ Entry_name e)%string /\
      (dir = ""%string \/ exists parent, dir = (parent ++ sep)%string))).

Lemma page_entries_well_formed (page : Page Owner DateTime) :
  Forall entry_well_formed (page_entries timestamp page).
Proof.
  unfold page_entries. apply Forall_app. split; apply Forall_forall; intros e Hin;
    apply filter_In in Hin; destruct Hin as [Hin Hnamed];
    apply in_map_iff in Hin; destruct Hin as [x [<- _]];
    unfold named in Hnamed; apply truthy_true_iff in Hnamed; (split; [exact Hnamed |]).
  - unfold dir_entry_of. cbn [Entry_name Entry_is_dir Entry_size Entry_last_modified Entry_raw].
    split; [apply last_segment_decomposes | left; repeat split].
  - unfold file_entry_of. cbn [Entry_name Entry_is_dir Entry_size Entry_last_modified Entry_raw].
    destruct (last_segment_decomposes (blob_name x)) as [Hsep [dir [Hdec Hdir]]].
    split; [exact Hsep | right]. split; [reflexivity |].
    exists x, dir. repeat split; assumption.
Qed.

Lemma scandir_loop_Forall (P : BucketEntryGCS Owner DateTime Timestamp -> Prop)
  (c : storage_Client Owner DateTime) (bucket : BucketGCS) (prefix : option string) :
  (forall page, Forall P (page_entries timestamp page)) ->
  forall fuel tok, Forall P (fst (scandir_loop timestamp fuel c bucket prefix tok)).
Proof.
  intros Hpage. induction fuel as [|fuel IH]; intros tok; [constructor |].
  cbn [scandir_loop]. rewrite (fetch_call Owner DateTime).
  destruct (client_list_blobs c (BucketGCS_name bucket) prefix (Some sep) (page_token_of tok))
    as [e|response]; [constructor |].
  apply seq_yielded_Forall.
  - apply for_iter_Forall. intros page.
    rewrite (scandir_page_spec Owner DateTime Timestamp timestamp). apply Hpage.
  - destruct (next_page_token response); [apply IH | constructor].
Qed.

(** X16: whatever the SDK answers, and however the listing ends, every
    entry [scandir] yields for a path with a root is well formed: its name
    is not empty and holds no separator; a directory entry has no size, time
    or handle; a file entry carries those of an object whose key is a
    directory part (empty, or ending with the separator) followed by the
    name. *)
Theorem scandir_entries_well_formed
  (fuel : nat) (self : BucketClientGCS Owner DateTime) (path : PurePathy)
  (prefix delimiter : option string) (flag : bool) :
  PyStr.truthy (root path) = true ->
  Forall entry_well_formed
         (Gen.yielded (scandir timestamp fuel self (Some path) prefix delimiter flag)).
Proof.
  intros Hr. unfold Gen.yielded, scandir.
  destruct (client self) as [c|]; [| constructor].
  rewrite Hr. cbn [negb].
  destruct (lookup_bucket self path) as [e|[bucket|]]; try constructor.
  apply scandir_loop_Forall. exact page_entries_well_formed.
Qed.

(** ** What the listings ask of the SDK *)

Lemma scandir_loop_ext (c1 c2 : storage_Client Owner DateTime) (bucket : BucketGCS)
  (prefix : option string) :
  (forall tok, client_list_blobs c1 (BucketGCS_name bucket) prefix (Some sep) tok
               = client_list_blobs c2 (BucketGCS_name bucket) prefix (Some sep) tok) ->
  forall fuel tok, scandir_loop timestamp fuel c1 bucket prefix tok
                   = scandir_loop timestamp fuel c2 bucket prefix tok.
Proof.
  intros Hsame. induction fuel as [|fuel IH]; intros tok; [reflexivity |].
  cbn [scandir_loop]. rewrite !(fetch_call Owner DateTime), Hsame.
  destruct (client_list_blobs c2 (BucketGCS_name bucket) prefix (Some sep) (page_token_of tok))
    as [e|response]; [reflexivity |].
  destruct (next_page_token response); [now rewrite IH | reflexivity].
Qed.

Lemma list_blobs_loop_ext (c1 c2 : storage_Client Owner DateTime) (path : PurePathy)
  (prefix delimiter : option string) (bucket : BucketGCS) :
  (forall tok, client_list_blobs c1 (root path) prefix delimiter tok
               = client_list_blobs c2 (root path) prefix delimiter tok) ->
  forall fuel tok, list_blobs_loop timestamp fuel c1 path prefix delimiter bucket tok
                   = list_blobs_loop timestamp fuel c2 path prefix delimiter bucket tok.
Proof.
  intros Hsame. induction fuel as [|fuel IH]; intros tok; [reflexivity |].
  cbn [list_blobs_loop]. rewrite !(fetch_call Owner DateTime), Hsame.
  destruct (client_list_blobs c2 (root path) prefix delimiter (page_token_of tok))
    as [e|response]; [reflexivity |].
  destruct (next_page_token response); [now rewrite IH | reflexivity].
Qed.

(** X17: the delimiter and the flag passed to [scandir] never reach the
    SDK: for a path with a root, [scandir] asks only for the bucket of the
    root and for listings of that bucket under the caller's prefix with the
    separator as delimiter.  Two clients that agree on those give the same
    entries whatever they do elsewhere, and whatever delimiter and flag
    each call is given; [list_blobs] likewise asks only for listings under
    the caller's own prefix and delimiter. *)
Theorem listings_ask_only_for_their_bucket
  (fuel : nat) (self1 self2 : BucketClientGCS Owner DateTime)
  (c1 c2 : located (storage_Client Owner DateTime)) (path : PurePathy)
  (prefix : option string) :
  client self1 = Some c1 ->
  client self2 = Some c2 ->
  client_bucket (obj c1) (root path) = client_bucket (obj c2) (root path) ->
  (PyStr.truthy (root path) = true ->
   (forall tok, client_list_blobs (obj c1) (root path) prefix (Some sep) tok
                = client_list_blobs (obj c2) (root path) prefix (Some sep) tok) ->
   forall delimiter1 delimiter2 flag1 flag2,
     scandir timestamp fuel self1 (Some path) prefix delimiter1 flag1
     = scandir timestamp fuel self2 (Some path) prefix delimiter2 flag2) /\
  (forall delimiter,
      (forall tok, client_list_blobs (obj c1) (root path) prefix delimiter tok
                   = client_list_blobs (obj c2) (root path) prefix delimiter tok) ->
      forall flag1 flag2,
        list_blobs timestamp fuel self1 path prefix delimiter flag1
        = list_blobs timestamp fuel self2 path prefix delimiter flag2).
Proof.
  intros Hc1 Hc2 Hb.
  assert (lookup_bucket self1 path = lookup_bucket self2 path) as Hl.
  { unfold lookup_bucket. now rewrite Hc1, Hc2, Hb. }
  split.
  - intros Hr Hsame delimiter1 delimiter2 flag1 flag2.
    rewrite (scandir_rooted Owner DateTime Timestamp timestamp fuel self1 c1 path
               prefix delimiter1 flag1 Hc1 Hr).
    rewrite (scandir_rooted Owner DateTime Timestamp timestamp fuel self2 c2 path
               prefix delimiter2 flag2 Hc2 Hr).
    rewrite Hl. destruct (lookup_bucket self2 path) as [e|[bucket|]] eqn:Hl2; try reflexivity.
    apply scandir_loop_ext.
    rewrite (lookup_bucket_name Owner DateTime self2 path bucket Hl2). exact Hsame.
  - intros delimiter Hsame flag1 flag2. unfold list_blobs. rewrite Hc1, Hc2, Hl.
    destruct (lookup_bucket self2 path) as [e|[bucket|]]; try reflexivity.
    now apply list_blobs_loop_ext.
Qed.

(** X18: existence is closed under taking parents: in a bucket whose
    listing runs to its end, when [exists] answers true for a path it
    answers true for every path of the same bucket whose key, followed by
    the separator, begins that path's key. *)
Theorem exists_closed_under_parents
  (fuel : nat) (self : BucketClientGCS Owner DateTime)
  (c : located (storage_Client Owner DateTime)) (path parent : PurePathy)
  (bucket : BucketGCS) (rs : list (Response Owner DateTime)) (rest : string) :
  client self = Some c ->
  lookup_bucket self path = Ret (Some bucket) ->
  listing_run (obj c) (root path) None None None rs Done ->
  length rs < fuel ->
  root parent = root path ->
  key path = (key parent ++ sep ++ rest)%string ->
  BucketClientGCS_exists timestamp fuel self path = Returns true ->
  BucketClientGCS_exists timestamp fuel self parent = Returns true.
Proof.
  intros Hc Hl Hrun Hf Hroot Hkey.
  assert (lookup_bucket self parent = Ret (Some bucket)) as Hl'.
  { unfold lookup_bucket in *. now rewrite Hroot. }
  assert (listing_run (obj c) (root parent) None None None rs Done) as Hrun'
    by now rewrite Hroot.
  rewrite !(exists_of_listing Owner DateTime Timestamp timestamp).
  rewrite (list_blobs_on_run Owner DateTime Timestamp timestamp fuel self c path
             None None false bucket rs Done Hc Hl Hrun Hf).
  rewrite (list_blobs_on_run Owner DateTime Timestamp timestamp fuel self c parent
             None None false bucket rs Done Hc Hl' Hrun' Hf).
  cbv zeta. cbn [fst snd]. rewrite !existsb_of_map.
  cbn [BlobGCS_of_native BlobGCS_name].
  destruct (existsb (fun a => key_matches (key path) (blob_name a)) (all_items rs)) eqn:E;
    [intros _ | intros H; discriminate H].
  apply existsb_exists in E. destruct E as [item [Hin Hm]].
  assert (existsb (fun a => key_matches (key parent) (blob_name a)) (all_items rs) = true)
    as ->; [| reflexivity].
  apply existsb_exists. exists item. split; [exact Hin |].
  apply key_matches_iff. right. apply key_matches_iff in Hm.
  destruct Hm as [Hm | [more Hm]]; rewrite Hm, Hkey.
  - exists rest. reflexivity.
  - exists (rest ++ sep ++ more)%string. now rewrite !append_assoc.
Qed.

(** ** [scandir] against [list_blobs] *)

(** The objects behind the entries of a listing, in order. *)
Definition entry_objects (entries : list (BucketEntryGCS Owner DateTime Timestamp))
  : list (storage_Blob Owner DateTime) :=
  flat_map (fun e => match Entry_raw e with Some item => [item] | None => [] end) entries.

Definition blob_objects (blobs : list (BlobGCS Owner DateTime Timestamp))
  : list (storage_Blob Owner DateTime) :=
  flat_map (fun b => match BlobGCS_raw b with Some item => [item] | None => [] end) blobs.

Lemma blob_objects_of_native (bucket : bucket_ref) (items : list (storage_Blob Owner DateTime)) :
  blob_objects (map (BlobGCS_of_native timestamp bucket) items) = items.
Proof. induction items as [|i items IH]; simpl; [reflexivity | now f_equal]. Qed.

Lemma entry_objects_app (a b : list (BucketEntryGCS Owner DateTime Timestamp)) :
  entry_objects (a ++ b) = entry_objects a ++ entry_objects b.
Proof. apply flat_map_app. Qed.

Lemma entry_objects_of_folders (folders : list string) :
  entry_objects (filter named (map (@dir_entry_of Owner DateTime Timestamp) folders)) = [].
Proof.
  induction folders as [|f fs IH]; simpl; [reflexivity |].
  destruct (named (dir_entry_of f)); [simpl |]; exact IH.
Qed.

Lemma entry_objects_of_files (items : list (storage_Blob Owner DateTime)) :
  entry_objects (map (file_entry_of timestamp) items) = items.
Proof. induction items as [|i items IH]; simpl; [reflexivity | now f_equal]. Qed.

Lemma entry_objects_of_page (page : Page Owner DateTime) :
  entry_objects (page_entries timestamp page)
  = filter (fun item => negb (placeholder (blob_name item))) (page_items page).
Proof.
  rewrite page_entries_without_placeholders, entry_objects_app.
  now rewrite entry_objects_of_folders, entry_objects_of_files.
Qed.

(** X19: on the same listing (the caller's prefix, the separator as
    delimiter), however it ends, the files [scandir] yields are the objects
    [list_blobs] yields, in the same order, without the placeholders. *)
Theorem scandir_files_are_listed_blobs
  (fuel : nat) (self : BucketClientGCS Owner DateTime)
  (c : located (storage_Client Owner DateTime)) (path : PurePathy)
  (prefix delimiter : option string) (flag flag' : bool)
  (bucket : BucketGCS) (rs : list (Response Owner DateTime)) (o : outcome) :
  client self = Some c ->
  PyStr.truthy (root path) = true ->
  lookup_bucket self path = Ret (Some bucket) ->
  listing_run (obj c) (root path) prefix (Some sep) None rs o ->
  length rs < fuel ->
  entry_objects (Gen.yielded (scandir timestamp fuel self (Some path) prefix delimiter flag))
  = filter (fun item => negb (placeholder (blob_name item)))
      (blob_objects
         (Gen.yielded (list_blobs timestamp fuel self path prefix (Some sep) flag'))) /\
  Gen.ending (scandir timestamp fuel self (Some path) prefix delimiter flag)
  = Gen.ending (list_blobs timestamp fuel self path prefix (Some sep) flag').
Proof.
  intros Hc Hr Hl Hrun Hf.
  rewrite (scandir_on_run Owner DateTime Timestamp timestamp fuel self c path prefix
             delimiter flag bucket rs o Hc Hr Hl Hrun Hf).
  rewrite (list_blobs_on_run Owner DateTime Timestamp timestamp fuel self c path prefix
             (Some sep) flag' bucket rs o Hc Hl Hrun Hf).
  unfold Gen.yielded, Gen.ending. cbn [fst snd]. split; [| reflexivity].
  rewrite blob_objects_of_native. unfold all_items.
  induction (all_pages rs) as [|page ps IH]; [reflexivity |].
  cbn [flat_map]. rewrite entry_objects_app, filter_app, IH. f_equal.
  apply entry_objects_of_page.
Qed.
End Further.

(** ** More of the concrete client *)

Module MoreFixtures.

Import Fixtures.

(** The listing of bucket [loop]: one object, and the empty string as
    token. *)
Definition loop_response : Response string Z :=
  {| pages := ICons (page [] [blob "x.txt" 1 1000]) INil;
     next_page_token := Some ""%string |}.

(** The client of the fixtures, with a bucket [loop] and a bucket [broken]
    whose listing fails with an error that is not client-class. *)
Definition sdk2 : storage_Client string Z :=
  {| client_bucket := client_bucket sdk;
     client_list_blobs := fun name prefix delimiter page_token =>
       if String.eqb name "loop" then Ret loop_response
       else if String.eqb name "broken" then Raise (OtherError "connection reset")
       else client_list_blobs sdk name prefix delimiter page_token;
     client_list_buckets := client_list_buckets sdk |}.

(** A client that only answers listings with the separator as delimiter. *)
Definition sdk3 : storage_Client string Z :=
  {| client_bucket := client_bucket sdk2;
     client_list_blobs := fun name prefix delimiter page_token =>
       match delimiter with
       | Some d =>
           if String.eqb d sep then client_list_blobs sdk2 name prefix delimiter page_token
           else Raise (OtherError "unsupported delimiter")
       | None => Raise (OtherError "delimiter required")
       end;
     client_list_buckets := Raise (OtherError "listing of buckets disabled") |}.

Definition client2 : located (storage_Client string Z) := {| addr := 9; obj := sdk2 |}.
Definition client3 : located (storage_Client string Z) := {| addr := 10; obj := sdk3 |}.

Definition gcs2 : BucketClientGCS string Z := {| client := Some client2 |}.
Definition gcs3 : BucketClientGCS string Z := {| client := Some client3 |}.

End MoreFixtures.

Import Fixtures MoreFixtures.

Lemma bucket_lookup_error_translation_witness :
  get_bucket gcs (at_ "denied" "a") = Raise (ClientError "forbidden" 403) /\
  lookup_bucket gcs (at_ "denied" "a") = Ret None.
Proof.
  apply (proj1 (proj2 (proj2 (bucket_lookup_error_translation gcs (at_ "denied" "a")))))
    with (c := the_client); reflexivity.
Defined.

Lemma operations_without_client_assert_witness :
  (lookup_bucket (@BucketClientGCS_init string Z 8 None (Some the_client)) (at_ "data" "a")
  = Raise AssertionError /\
  get_bucket (@BucketClientGCS_init string Z 8 None (Some the_client)) (at_ "data" "a")
  = Raise AssertionError /\
  list_buckets (@BucketClientGCS_init string Z 8 None (Some the_client))
  = Raise AssertionError /\
  scandir ts 3 (@BucketClientGCS_init string Z 8 None (Some the_client))
    (Some (at_ "data" "a")) None None false
  = ([], Raised AssertionError) /\
  scandir ts 3 (@BucketClientGCS_init string Z 8 None (Some the_client)) None None None false
  = ([], Raised AssertionError) /\
  list_blobs ts 3 (@BucketClientGCS_init string Z 8 None (Some the_client))
    (at_ "data" "a") None None false
  = ([], Raised AssertionError)) /\
  BucketClientGCS_exists ts 3
    (@BucketClientGCS_init string Z 8
       (Some {| storage_Client_new := Raise DefaultCredentialsError |}) (Some the_client))
    (at_ "data" "a")
  = Raises AssertionError.
Proof.
  split.
  - destruct (operations_without_client_assert ts 8 None (Some the_client)
                (or_introl eq_refl) 3 (at_ "data" "a") None None false)
      as [H1 [H2 [H3 [H4 [H5 [H6 _]]]]]].
    repeat split; assumption.
  - assert (exists (m : storage_module string Z) (e : exn),
               Some {| storage_Client_new := Raise DefaultCredentialsError |} = Some m /\
               storage_Client_new m = Raise e) as Hraised.
    { exists {| storage_Client_new := Raise DefaultCredentialsError |},
        DefaultCredentialsError. split; reflexivity. }
    destruct (operations_without_client_assert ts 8
                (Some {| storage_Client_new := Raise DefaultCredentialsError |})
                (Some the_client) (or_intror Hraised) 3 (at_ "data" "a") None None false)
      as [_ [_ [_ [_ [_ [_ Hexists]]]]]].
    exact (Hexists Hraised).
Defined.

Lemma missing_bucket_lists_nothing_witness :
  list_blobs ts 0 gcs (at_ "ghost" "a") None None false = ([], Done) /\
  scandir ts 0 gcs (Some (at_ "ghost" "a")) None None false = ([], Done) /\
  BucketClientGCS_exists ts 0 gcs (at_ "ghost" "a") = Returns false.
Proof.
  destruct (missing_bucket_lists_nothing ts gcs the_client (at_ "ghost" "a") eq_refl
              (or_introl eq_refl) 0 None None false) as [Hblobs [Hscan Hexists]].
  split; [exact Hblobs | split; [apply Hscan; reflexivity | exact Hexists]].
Defined.

Lemma exists_answers_from_first_response_witness :
  BucketClientGCS_exists ts 1 gcs (at_ "flaky" "x.txt") = Returns true.
Proof.
  apply (exists_answers_from_first_response ts 0 gcs the_client (at_ "flaky" "x.txt")
           (wrapped "flaky")
           {| pages := ICons (page [] [blob "x.txt" 1 1000]) INil;
              next_page_token := Some "t2"%string |}
           (blob "x.txt" 1 1000)); try reflexivity.
  simpl. now left.
Defined.

Lemma exists_raises_other_errors_witness :
  BucketClientGCS_exists ts 1 gcs2 (at_ "broken" "a") = Raises (OtherError "connection reset").
Proof.
  apply (exists_raises_other_errors ts 1 gcs2 client2 (at_ "broken" "a") (wrapped "broken")
           [] (OtherError "connection reset")); try reflexivity.
  - apply run_fetch_raises. reflexivity.
  - simpl. lia.
  - intros item [].
Defined.

Lemma exists_of_bucket_root_is_false_witness :
  BucketClientGCS_exists ts 3 gcs (at_ "data" "") = Returns false.
Proof.
  apply (exists_of_bucket_root_is_false ts 3 gcs the_client (at_ "data" "") (wrapped "data")
           [first_flat; second_flat]); try reflexivity.
  - exact data_run_flat.
  - simpl. lia.
  - intros item [<- | [<- | [<- | []]]]; split; (discriminate || reflexivity).
Defined.

Lemma list_blobs_restarts_on_empty_token_witness :
  list_blobs ts 3 gcs2 (at_ "loop" "") None None false
  = (concat (repeat (map (BlobGCS_of_native ts (WrappedBucket (wrapped "loop")))
                       (flat_map page_items (iter_items (pages loop_response)))) 3),
     OutOfFuel).
Proof.
  apply (list_blobs_restarts_on_empty_token ts gcs2 client2 (at_ "loop" "") None None false
           (wrapped "loop") loop_response); reflexivity.
Defined.

Lemma scandir_restarts_on_empty_token_witness :
  scandir ts 3 gcs2 (Some (at_ "loop" "")) None None false
  = (concat (repeat (flat_map (page_entries ts) (iter_items (pages loop_response))) 3),
     OutOfFuel).
Proof.
  apply (scandir_restarts_on_empty_token ts gcs2 client2 (at_ "loop" "") None None false
           (wrapped "loop") loop_response); reflexivity.
Defined.

Lemma exists_never_returns_on_empty_token_witness :
  BucketClientGCS_exists ts 50 gcs2 (at_ "loop" "y.txt") = Timeout.
Proof.
  apply (exists_never_returns_on_empty_token ts gcs2 client2 (at_ "loop" "y.txt")
           (wrapped "loop") loop_response); try reflexivity.
  intros item [<- | []]. reflexivity.
Defined.

Lemma folder_entry_of_common_prefix_witness :
  Gen.yielded (@folder_entries string Z Z "a/b")
  = [{| Entry_name := "b"; Entry_is_dir := true; Entry_size := None;
        Entry_last_modified := None; Entry_raw := None |}].
Proof.
  apply (proj2 (@folder_entry_of_common_prefix string Z Z "a/b")). reflexivity.
Defined.

Lemma scandir_entries_well_formed_witness :
  Forall (entry_well_formed ts)
         (Gen.yielded (scandir ts 2 gcs (Some (at_ "dirs" "")) (Some "dir/"%string) None false)).
Proof.
  apply (scandir_entries_well_formed ts 2 gcs (at_ "dirs" "") (Some "dir/"%string) None false).
  reflexivity.
Defined.

Lemma listings_ask_only_for_their_bucket_witness :
  scandir ts 3 gcs2 (Some (at_ "data" "")) None None false
  = scandir ts 3 gcs3 (Some (at_ "data" "")) None (Some "-"%string) true /\
  list_blobs ts 3 gcs2 (at_ "data" "") None (Some sep) false
  = list_blobs ts 3 gcs3 (at_ "data" "") None (Some sep) true.
Proof.
  destruct (listings_ask_only_for_their_bucket ts 3 gcs2 gcs3 client2 client3
              (at_ "data" "") None eq_refl eq_refl eq_refl) as [Hscan Hlist].
  split.
  - apply Hscan; reflexivity.
  - apply (Hlist (Some sep)). reflexivity.
Defined.

Lemma exists_closed_under_parents_witness :
  BucketClientGCS_exists ts 3 gcs (at_ "data" "a") = Returns true.
Proof.
  apply (exists_closed_under_parents ts 3 gcs the_client (at_ "data" "a/b.txt")
           (at_ "data" "a") (wrapped "data") [first_flat; second_flat] "b.txt");
    try reflexivity.
  - exact data_run_flat.
  - simpl. lia.
Defined.

Lemma scandir_files_are_listed_blobs_witness :
  entry_objects
    (Gen.yielded (scandir ts 2 gcs (Some (at_ "dirs" "")) (Some "dir/"%string) None false))
  = filter (fun item => negb (placeholder (blob_name item)))
      (blob_objects
         (Gen.yielded (list_blobs ts 2 gcs (at_ "dirs" "") (Some "dir/"%string) (Some sep)
                         true))) /\
  Gen.ending (scandir ts 2 gcs (Some (at_ "dirs" "")) (Some "dir/"%string) None false)
  = Gen.ending (list_blobs ts 2 gcs (at_ "dirs" "") (Some "dir/"%string) (Some sep) true).
Proof.
  apply (scandir_files_are_listed_blobs ts 2 gcs the_client (at_ "dirs" "")
           (Some "dir/"%string) None false true (wrapped "dirs") [list_dirs] Done);
    try reflexivity.
  - apply run_last; reflexivity.
  - simpl. lia.
Defined.
